(** * guardrails.utils.pydantic_utils: schema-to-markup compilation

    A shallow embedding of [src/guardrails/utils/pydantic_utils.py]: the type
    normalizer ([prepare_type_annotation]), the classifier
    ([type_annotation_to_string]), the validator encoder
    ([add_validators_to_xml_element]) and the mutually recursive tree builder
    ([create_xml_element_for_field] / [create_xml_element_for_base_model]).

    Python exceptions are values of [exn] carried by the [exc] monad
    ([assert] statements are enabled).  A schema is a finite tree: a model
    class holds its fields, so models that refer to themselves, on which the
    source recurses without end, are outside the model.  The two
    tree-building functions recurse on Python objects; here they recurse on a
    fuel counter; [create_xml_element_for_field_total] shows that fuel above
    twice the nesting depth of the schema is always enough, and
    [fuel_irrelevant] that the outcome does not depend on the amount. *)

From Stdlib Require Import String List Bool Arith Lia.
Import ListNotations.
Open Scope string_scope.
Set Warnings "-register-all".

(** ** Python type objects *)

(** The class objects the source compares against with [==] (identity on
    classes), plus [COther] for any further plain class (bytes, Decimal, ...). *)
Inductive PyClass : Type :=
| CNoneType | CBool | CDate | CFloat | CInt | CStr | CTime | CHttpUrl
| CList | CDict
| COther (qualname : string).

(** What [typing.get_origin] can return on a parameterised alias. *)
Inductive Origin : Type :=
| OList | ODict | OUnion
| OOther (qualname : string).

(** An entry of [gd_validators]: either text that is already serialized, or a
    validator object, of which the source reads [to_xml_attrib()],
    [rail_alias] and [on_fail] (a callable or [None]; only its [__name__] is
    used). *)
Inductive Validator : Type :=
| VStr (text : string)
| VObj (to_xml_attrib : string) (rail_alias : string)
       (on_fail__name__ : option string).

(** pydantic's [FieldInfo], restricted to the attributes the source reads.
    [gd_validators] and [when] are looked up behind [hasattr]; an attribute
    that is missing and one that is [None] take the same branch in the source
    and are both [None] here. *)
Record FieldInfo : Type := mkFieldInfo {
  description : option string;
  gd_validators : option (list Validator);
  when : option string
}.

Record ModelField_ (T : Type) : Type := mkModelField {
  annotation : T;
  field_info : FieldInfo
}.
Arguments mkModelField {T} _ _.
Arguments annotation {T} _.
Arguments field_info {T} _.

(** A type annotation: a plain class, a [typing] alias with its origin and
    arguments ([typing.List] without parameters is [TGeneric OList []]),
    or a [BaseModel] subclass with its ordered [__fields__]. *)
Inductive ty : Type :=
| TClass (c : PyClass)
| TGeneric (o : Origin) (args : list ty)
| TModel (cls_name : string) (fields : list (string * ModelField_ ty)).

Definition ModelField : Type := ModelField_ ty.

(** The first parameter of the source's functions is
    [Union[ModelField, Type, type]]. *)
Inductive FieldArg : Type :=
| AField (f : ModelField)
| AType (t : ty).

(** ** lxml elements *)

Inductive Element : Type :=
| mkElement (tag : string) (attrib : list (string * string))
            (children : list Element).

Definition tag (e : Element) : string :=
  match e with mkElement t _ _ => t end.
Definition attrib (e : Element) : list (string * string) :=
  match e with mkElement _ a _ => a end.
Definition children (e : Element) : list Element :=
  match e with mkElement _ _ c => c end.

(** [d[k] = v] on an insertion-ordered dict; also [Element.set], whose
    attribute table keeps the position of a key that is already there. *)
Fixpoint dict_set {V : Type} (k : string) (v : V) (d : list (string * V))
  : list (string * V) :=
  match d with
  | [] => [(k, v)]
  | (k', v') :: d' =>
      if String.eqb k' k then (k, v) :: d' else (k', v') :: dict_set k v d'
  end.

Fixpoint dict_get {V : Type} (k : string) (d : list (string * V)) : option V :=
  match d with
  | [] => None
  | (k', v') :: d' => if String.eqb k' k then Some v' else dict_get k d'
  end.

(** [k in d] *)
Definition dict_mem {V : Type} (k : string) (d : list (string * V)) : bool :=
  existsb (fun kv => String.eqb (fst kv) k) d.

(** [k in s] for a set of strings *)
Definition set_mem (k : string) (s : list string) : bool :=
  existsb (fun k' => String.eqb k' k) s.

(** [E(tag)] *)
Definition E (t : string) : Element := mkElement t [] [].

(** [element.set(k, v)] *)
Definition Element_set (e : Element) (k v : string) : Element :=
  mkElement (tag e) (dict_set k v (attrib e)) (children e).

(** [element.append(child)] *)
Definition Element_append (e child : Element) : Element :=
  mkElement (tag e) (attrib e) (children e ++ [child])%list.

(** ** Exceptions *)

Inductive exn : Type :=
| AssertionError (msg : string)
| UnsupportedType (offending : ty)
    (* ValueError(f"Unsupported type: {type_annotation}") *)
| IndexError
| AttributeError (attr : string).

Inductive exc (A : Type) : Type :=
| Ok (a : A)
| Raise (e : exn).
Arguments Ok {A} _.
Arguments Raise {A} _.

Definition bind {A B : Type} (m : exc A) (k : A -> exc B) : exc B :=
  match m with
  | Ok a => k a
  | Raise e => Raise e
  end.

Notation "x <- m ;; k" := (bind m (fun x => k))
  (at level 61, m at next level, right associativity).

(** Computations of the fuelled functions: [None] is "fuel exhausted". *)
Definition fueled (A : Type) : Type := option (exc A).

Definition fbind {A B : Type} (m : fueled A) (k : A -> fueled B) : fueled B :=
  match m with
  | Some (Ok a) => k a
  | Some (Raise e) => Some (Raise e)
  | None => None
  end.

Notation "x <~ m ;; k" := (fbind m (fun x => k))
  (at level 61, m at next level, right associativity).

Definition lift {A : Type} (m : exc A) : fueled A := Some m.

(** A [for] loop whose body may raise: the state is threaded left to right and
    the first exception ends the loop. *)
Fixpoint for_each {S X : Type} (body : S -> X -> fueled S) (xs : list X) (s : S)
  : fueled S :=
  match xs with
  | [] => Some (Ok s)
  | x :: xs' => s' <~ body s x ;; for_each body xs' s'
  end.

(** ** typing helpers *)

Definition get_origin (t : ty) : option Origin :=
  match t with
  | TGeneric o _ => Some o
  | _ => None
  end.

Definition get_args (t : ty) : list ty :=
  match t with
  | TGeneric _ args => args
  | _ => []
  end.

Definition is_class (c : PyClass) (t : ty) : bool :=
  match t, c with
  | TClass CNoneType, CNoneType | TClass CBool, CBool | TClass CDate, CDate
  | TClass CFloat, CFloat | TClass CInt, CInt | TClass CStr, CStr
  | TClass CTime, CTime | TClass CHttpUrl, CHttpUrl
  | TClass CList, CList | TClass CDict, CDict => true
  | TClass (COther a), COther b => String.eqb a b
  | _, _ => false
  end.

Definition origin_is (o : Origin) (t : ty) : bool :=
  match get_origin t, o with
  | Some OList, OList | Some ODict, ODict | Some OUnion, OUnion => true
  | Some (OOther a), OOther b => String.eqb a b
  | _, _ => false
  end.

(** ** The source's functions *)

(** [issubclass(type_annotation, BaseModel)]; on a [typing] alias
    [issubclass] raises [TypeError], which the source catches. *)
Definition is_pydantic_base_model (t : ty) : bool :=
  match t with
  | TModel _ _ => true
  | _ => false
  end.

Definition declared (a : FieldArg) : ty :=
  match a with
  | AField f => annotation f
  | AType t => t
  end.

Definition union_assert_msg : string :=
  "Union type must have exactly one non-None type".

Definition prepare_type_annotation (type_annotation : FieldArg) : exc ty :=
  let type_annotation := declared type_annotation in
  if origin_is OUnion type_annotation then
    let type_annotation :=
      filter (fun t => negb (is_class CNoneType t)) (get_args type_annotation) in
    match type_annotation with
    | [t] => Ok t
    | _ => Raise (AssertionError union_assert_msg)
    end
  else Ok type_annotation.

Definition is_list (type_annotation : FieldArg) : exc bool :=
  type_annotation <- prepare_type_annotation type_annotation ;;
  if is_pydantic_base_model type_annotation then Ok false
  else if origin_is OList type_annotation then Ok true
  else if is_class CList type_annotation then Ok true
  else Ok false.

Definition is_dict (type_annotation : FieldArg) : exc bool :=
  type_annotation <- prepare_type_annotation type_annotation ;;
  if is_pydantic_base_model type_annotation then Ok true
  else if origin_is ODict type_annotation then Ok true
  else if is_class CDict type_annotation then Ok true
  else Ok false.

Definition type_annotation_to_string (type_annotation : FieldArg) : exc string :=
  type_annotation <- prepare_type_annotation type_annotation ;;
  l <- is_list (AType type_annotation) ;;
  if l then Ok "list" else
  d <- is_dict (AType type_annotation) ;;
  if d then Ok "object"
  else if is_class CBool type_annotation then Ok "bool"
  else if is_class CDate type_annotation then Ok "date"
  else if is_class CFloat type_annotation then Ok "float"
  else if is_class CInt type_annotation then Ok "integer"
  else if is_class CStr type_annotation then Ok "string"
  else if is_class CTime type_annotation then Ok "time"
  else if is_class CHttpUrl type_annotation then Ok "url"
  else Raise (UnsupportedType type_annotation).

(** Python truthiness of an optional string ([if field_name:],
    [... and field.field_info.when]). *)
Definition truthy (s : option string) : bool :=
  match s with
  | None | Some EmptyString => false
  | Some _ => true
  end.

(** ["; ".join(parts)] *)
Fixpoint join (sep : string) (parts : list string) : string :=
  match parts with
  | [] => EmptyString
  | [p] => p
  | p :: rest => p ++ sep ++ join sep rest
  end.

(** The loop of [add_validators_to_xml_element] over [gd_validators]:
    the state is [(format_prompt, on_fails)]. *)
Definition collect_validator (st : list string * list (string * string))
  (validator : Validator) : list string * list (string * string) :=
  let '(format_prompt, on_fails) := st in
  match validator with
  | VStr validator_prompt =>
      ((format_prompt ++ [validator_prompt])%list, on_fails)
  | VObj validator_prompt alias on_fail =>
      let on_fail := match on_fail with Some n => n | None => "noop" end in
      ((format_prompt ++ [validator_prompt])%list,
       dict_set alias on_fail on_fails)
  end.

Definition add_validators_to_xml_element (field : FieldArg)
  (element : Element) : Element :=
  match field with
  | AField f =>
      match gd_validators (field_info f) with
      | Some validators =>
          let '(format_prompt, on_fails) :=
            fold_left collect_validator validators ([], []) in
          if Nat.ltb 0 (List.length format_prompt) then
            let element := Element_set element "format" (join "; " format_prompt) in
            fold_left
              (fun element kv =>
                 Element_set element ("on-fail-" ++ fst kv) (snd kv))
              on_fails element
          else element
      | None => element
      end
  | AType _ => element
  end.

(** Lines 264-277 of [create_xml_element_for_field]: the element with its
    tag, [name], validator attributes and [description], before any child is
    built. *)
Definition field_element_head (field : FieldArg) (field_name : option string)
  (field_type : string) : Element :=
  let element := E field_type in
  let element :=
    match field_name with
    | Some n => if truthy field_name then Element_set element "name" n else element
    | None => element
    end in
  let element := add_validators_to_xml_element field element in
  match field with
  | AField f =>
      match description (field_info f) with
      | Some d => Element_set element "description" d
      | None => element
      end
  | AType _ => element
  end.

Definition dict_key_assert_msg : string :=
  "Only string keys are supported for dicts".

(** [choice_elements[when].append(entry)] on a [defaultdict(list)]: a new key
    goes to the end, an existing key keeps its place. *)
Fixpoint defaultdict_append {V : Type} (k : string) (v : V)
  (d : list (string * list V)) : list (string * list V) :=
  match d with
  | [] => [(k, [v])]
  | (k', vs) :: d' =>
      if String.eqb k' k then (k', (vs ++ [v])%list) :: d'
      else (k', vs) :: defaultdict_append k v d'
  end.

(** The first loop of [create_xml_element_for_base_model]: the state is
    [(choice_elements, case_elements)]. *)
Definition identify_when
  (st : list (string * list (string * ModelField)) * list string)
  (item : string * ModelField)
  : list (string * list (string * ModelField)) * list string :=
  let '(choice_elements, case_elements) := st in
  let '(field_name, field) := item in
  match when (field_info field) with
  | Some w =>
      if truthy (Some w) then
        (defaultdict_append w (field_name, field) choice_elements,
         field_name :: case_elements)
      else st
  | None => st
  end.

(** [model.__fields__]; anything but a model class has no such attribute. *)
Definition __fields__ (model : ty) : exc (list (string * ModelField)) :=
  match model with
  | TModel _ fields => Ok fields
  | _ => Raise (AttributeError "__fields__")
  end.

Fixpoint create_xml_element_for_field (fuel : nat) (field : FieldArg)
  (field_name : option string) {struct fuel} : fueled Element :=
  match fuel with
  | O => None
  | S fuel =>
    field_type <~ lift (type_annotation_to_string field) ;;
    let element := field_element_head field field_name field_type in
    if (String.eqb field_type "list" || String.eqb field_type "object")%bool then
      type_annotation <~ lift (prepare_type_annotation field) ;;
      l <~ lift (is_list (AType type_annotation)) ;;
      if l then
        let inner_type := get_args type_annotation in
        (* [if len(inner_type) == 0: pass] has no effect *)
        match inner_type with
        | [] => Some (Raise IndexError)
        | inner_type :: _ =>
            if is_pydantic_base_model inner_type then
              object_element <~
                create_xml_element_for_base_model fuel inner_type None ;;
              Some (Ok (Element_append element object_element))
            else
              inner_element <~
                create_xml_element_for_field fuel (AType inner_type) None ;;
              Some (Ok (Element_append element inner_element))
        end
      else
        d <~ lift (is_dict (AType type_annotation)) ;;
        if d then
          if is_pydantic_base_model type_annotation then
            create_xml_element_for_base_model fuel type_annotation (Some element)
          else
            match get_args type_annotation with
            | [key_type; val_type] =>
                if is_class CStr key_type then
                  inner_element <~
                    create_xml_element_for_field fuel (AType val_type) None ;;
                  Some (Ok (Element_append element inner_element))
                else Some (Raise (AssertionError dict_key_assert_msg))
            | _ => Some (Ok element)
            end
        else Some (Raise (UnsupportedType type_annotation))
    else Some (Ok element)
  end

with create_xml_element_for_base_model (fuel : nat) (model : ty)
  (element : option Element) {struct fuel} : fueled Element :=
  match fuel with
  | O => None
  | S fuel =>
    let element := match element with Some e => e | None => E "object" end in
    fields <~ lift (__fields__ model) ;;
    let '(choice_elements, case_elements) :=
      fold_left identify_when fields ([], []) in
    element <~
      for_each
        (fun element '(field_name, field) =>
           if (dict_mem field_name choice_elements
               || set_mem field_name case_elements)%bool
           then Some (Ok element)
           else
             field_element <~
               create_xml_element_for_field fuel (AField field)
                 (Some field_name) ;;
             Some (Ok (Element_append element field_element)))
        fields element ;;
    for_each
      (fun element '(when, discriminator_fields) =>
         let choice_element :=
           Element_set (mkElement "choice" [("name", when)] [])
             "on-fail-choice" "exception" in
         choice_element <~
           for_each
             (fun choice_element '(field_name, field) =>
                let case_element := mkElement "case" [("name", field_name)] [] in
                field_element <~
                  create_xml_element_for_field fuel (AField field)
                    (Some field_name) ;;
                let case_element := Element_append case_element field_element in
                Some (Ok (Element_append choice_element case_element)))
             discriminator_fields choice_element ;;
         Some (Ok (Element_append element choice_element)))
      choice_elements element
  end.

(** ** Vocabulary of the statements *)

(** The members of a union that are not [type(None)]. *)
Definition non_None_members (args : list ty) : list ty :=
  filter (fun t => negb (is_class CNoneType t)) args.

(** [typing.Union] flattens: "unions of unions are flattened", so no argument
    of a union that Python can build is itself a union.  An annotation is
    representable when its declared type obeys this at the top. *)
Definition flattened (t : ty) : bool :=
  match t with
  | TGeneric OUnion args => forallb (fun a => negb (origin_is OUnion a)) args
  | _ => true
  end.

Definition representable (a : FieldArg) : bool := flattened (declared a).

(** Applying the normalizer to its own result. *)
Definition prepare_twice (a : FieldArg) : exc ty :=
  t <- prepare_type_annotation a ;; prepare_type_annotation (AType t).

(** The shapes [type_annotation_to_string] has a tag for. *)
Definition known_shape (t : ty) : bool :=
  match t with
  | TClass (CBool | CDate | CFloat | CInt | CStr | CTime | CHttpUrl
            | CList | CDict) => true
  | TClass _ => false
  | TGeneric (OList | ODict) _ => true
  | TGeneric _ _ => false
  | TModel _ _ => true
  end.

(** The [on-fail-*] attributes of an element. *)
Definition on_fail_attributes (e : Element) : list (string * string) :=
  filter (fun kv => String.prefix "on-fail-" (fst kv)) (attrib e).

(** Nesting depth of a type, and the fuel that is enough for it. *)
Fixpoint depth (t : ty) : nat :=
  match t with
  | TClass _ => 0
  | TGeneric _ args => S (list_max (map depth args))
  | TModel _ fields =>
      S (list_max (map (fun nf => depth (annotation (snd nf))) fields))
  end.

Definition enough_fuel (a : FieldArg) : nat := 2 * depth (declared a) + 2.

(** [collect f xs]: the results of [f] on [xs] from left to right, stopping at
    the first exception. *)
Fixpoint collect {X Y : Type} (f : X -> fueled Y) (xs : list X)
  : fueled (list Y) :=
  match xs with
  | [] => Some (Ok [])
  | x :: xs' => y <~ f x ;; ys <~ collect f xs' ;; Some (Ok (y :: ys))
  end.

(** A field that carries a discriminator key. *)
Definition has_when (f : ModelField) : bool := truthy (when (field_info f)).

(** The state the first loop of [create_xml_element_for_base_model] ends in. *)
Definition when_groups (fields : list (string * ModelField))
  : list (string * list (string * ModelField)) * list string :=
  fold_left identify_when fields ([], []).

(** The fields the second loop does not skip. *)
Definition direct_fields (fields : list (string * ModelField))
  : list (string * ModelField) :=
  filter
    (fun nf =>
       negb (dict_mem (fst nf) (fst (when_groups fields))
             || set_mem (fst nf) (snd (when_groups fields))))
    fields.

(** The element built for a named field of a model. *)
Definition named_field (fuel : nat) (nf : string * ModelField)
  : fueled Element :=
  create_xml_element_for_field fuel (AField (snd nf)) (Some (fst nf)).

(** The [case] element the third loop builds for one grouped field. *)
Definition case_of (fuel : nat) (nf : string * ModelField) : fueled Element :=
  field_element <~ named_field fuel nf ;;
  Some (Ok (mkElement "case" [("name", fst nf)] [field_element])).

(** The [choice] element the third loop builds for one discriminator key. *)
Definition choice_of (fuel : nat)
  (group : string * list (string * ModelField)) : fueled Element :=
  cases <~ collect (case_of fuel) (snd group) ;;
  Some (Ok (mkElement "choice"
              [("name", fst group); ("on-fail-choice", "exception")] cases)).

(** The fields other than [n1] and [n2] that reach the direct pass when
    "shape" is the only discriminator key and [n1], [n2] are its group. *)
Definition beside_shape (n1 n2 : string) (fields : list (string * ModelField))
  : list (string * ModelField) :=
  filter
    (fun nf =>
       negb (String.eqb (fst nf) "shape" || String.eqb (fst nf) n1
             || String.eqb (fst nf) n2))
    fields.

(** [m'] is at least as defined as [m], with the same outcome. *)
Definition refines {A : Type} (m m' : fueled A) : Prop :=
  forall r, m = Some r -> m' = Some r.

(** Concrete schemas used by the examples below. *)
Definition no_info : FieldInfo := mkFieldInfo None None None.
Definition shape_info : FieldInfo := mkFieldInfo None None (Some "shape").

Definition Optional (t : ty) : ty := TGeneric OUnion [t; TClass CNoneType].

(** The origin of a union written [X | Y] (PEP 604) on the Python versions
    where [get_origin] gives [types.UnionType] for it, which is not
    [typing.Union]. *)
Definition UnionType : Origin := OOther "types.UnionType".

Definition Circle : ty :=
  TModel "Circle" [("radius", mkModelField (TClass CFloat) no_info)].

Definition Drawing : ty :=
  TModel "Drawing"
    [("title", mkModelField (Optional (TClass CStr)) no_info);
     ("x", mkModelField (TClass CStr) shape_info);
     ("y", mkModelField Circle shape_info)].

Definition Tagged : ty :=
  TModel "Tagged"
    [("shape", mkModelField (TClass (COther "bytes")) no_info);
     ("x", mkModelField (TClass CStr) shape_info)].

(** ** Further vocabulary *)

(** The serialized text a validator contributes to [format]. *)
Definition validator_prompt (v : Validator) : string :=
  match v with
  | VStr text => text
  | VObj text _ _ => text
  end.

(** The action name written for a validator object. *)
Definition on_fail_name (on_fail : option string) : string :=
  match on_fail with Some n => n | None => "noop" end.

(** The action of the last validator object in [vs] whose alias is [alias]. *)
Fixpoint last_on_fail (alias : string) (vs : list Validator) : option string :=
  match vs with
  | [] => None
  | v :: rest =>
      match last_on_fail alias rest with
      | Some a => Some a
      | None =>
          match v with
          | VObj _ a on_fail =>
              if String.eqb a alias then Some (on_fail_name on_fail) else None
          | VStr _ => None
          end
      end
  end.

(** The [name] attribute a field starts with. *)
Definition name_attribute (field_name : option string)
  : list (string * string) :=
  match field_name with
  | Some n => if truthy field_name then [("name", n)] else []
  | None => []
  end.

(** What the validator encoder writes on an element without attributes. *)
Definition validator_attributes (field : FieldArg) : list (string * string) :=
  attrib (add_validators_to_xml_element field (E "x")).

(** The [description] attribute of a field. *)
Definition description_attribute (field : FieldArg)
  : list (string * string) :=
  match field with
  | AField f =>
      match description (field_info f) with
      | Some d => [("description", d)]
      | None => []
      end
  | AType _ => []
  end.

(** Two arguments that carry the same field metadata. *)
Definition same_info (a b : FieldArg) : Prop :=
  match a, b with
  | AField f, AField g => field_info f = field_info g
  | AType _, AType _ => True
  | _, _ => False
  end.

(** The strings of a list without repetition, each at its first place. *)
Fixpoint first_seen (ks : list string) : list string :=
  match ks with
  | [] => []
  | k :: rest =>
      k :: filter (fun k' => negb (String.eqb k' k)) (first_seen rest)
  end.

(** The discriminator key of a field, when it has a truthy one. *)
Definition discriminator (f : ModelField) : option string :=
  match when (field_info f) with
  | Some w => if truthy (Some w) then Some w else None
  | None => None
  end.

(** The discriminator keys of a model, in order of first occurrence. *)
Definition when_keys (fields : list (string * ModelField)) : list string :=
  first_seen
    (flat_map
       (fun nf => match discriminator (snd nf) with
                  | Some w => [w]
                  | None => []
                  end)
       fields).

(** The fields of a model that carry key [k], in declaration order. *)
Definition fields_with_key (k : string) (fields : list (string * ModelField))
  : list (string * ModelField) :=
  filter
    (fun nf => match discriminator (snd nf) with
               | Some w => String.eqb w k
               | None => false
               end)
    fields.

(** Some field of the model named [n] carries a discriminator key. *)
Definition names_discriminated (n : string)
  (fields : list (string * ModelField)) : bool :=
  existsb (fun nf => String.eqb (fst nf) n && has_when (snd nf))%bool fields.



(** What the third loop builds for one discriminator group: a [choice] named
    after the key, failing with "exception", with one [case] per grouped
    field, named after it and holding the field's element alone. *)
Definition is_choice_for (fuel : nat)
  (group : string * list (string * ModelField)) (c : Element) : Prop :=
  tag c = "choice"
  /\ attrib c = [("name", fst group); ("on-fail-choice", "exception")]
  /\ Forall2
       (fun nf case =>
          tag case = "case"
          /\ attrib case = [("name", fst nf)]
          /\ exists e, children case = [e]
                       /\ named_field fuel nf = Some (Ok e))
       (snd group) (children c).

(** The [on_fails] dict of the encoder after one validator. *)
Definition record_on_fail (on_fails : list (string * string)) (v : Validator)
  : list (string * string) :=
  match v with
  | VObj _ alias on_fail => dict_set alias (on_fail_name on_fail) on_fails
  | VStr _ => on_fails
  end.

(** The rule aliases of the validator objects of a list, in order. *)
Definition rail_aliases (vs : list Validator) : list string :=
  flat_map (fun v => match v with
                     | VObj _ alias _ => [alias]
                     | VStr _ => []
                     end) vs.

(** The attribute entries written for the [on_fails] dict. *)
Definition on_fail_entries (on_fails : list (string * string))
  : list (string * string) :=
  map (fun kv => ("on-fail-" ++ fst kv, snd kv)) on_fails.

(** The discriminator keys of the fields, one per field that has one, in
    declaration order (with repetitions). *)
Definition key_occurrences (fields : list (string * ModelField))
  : list string :=
  flat_map
    (fun nf => match discriminator (snd nf) with
               | Some w => [w]
               | None => []
               end)
    fields.

(** * Properties *)

(** ** The normalizer *)

Section Normalizer.

Lemma prepare_not_union (a : FieldArg) :
  origin_is OUnion (declared a) = false ->
  prepare_type_annotation a = Ok (declared a).
Proof.
  unfold prepare_type_annotation. intros ->. reflexivity.
Qed.

Lemma prepare_union (a : FieldArg) (args : list ty) :
  declared a = TGeneric OUnion args ->
  prepare_type_annotation a =
    match non_None_members args with
    | [t] => Ok t
    | _ => Raise (AssertionError union_assert_msg)
    end.
Proof.
  unfold prepare_type_annotation. intros ->. reflexivity.
Qed.

Lemma origin_is_union_inv (t : ty) :
  origin_is OUnion t = true -> exists args, t = TGeneric OUnion args.
Proof.
  destruct t as [c | [ | | | q] args | n fs]; cbn; try discriminate.
  intros _. now exists args.
Qed.

Lemma non_None_members_In (args : list ty) (t : ty) :
  In t (non_None_members args) -> In t args.
Proof.
  unfold non_None_members. intros H. apply filter_In in H. tauto.
Qed.

(** What the normalizer returns on a representable annotation is never a
    union again. *)
Lemma prepare_result_not_union (a : FieldArg) (t : ty) :
  representable a = true ->
  prepare_type_annotation a = Ok t ->
  origin_is OUnion t = false.
Proof.
  unfold representable. intros Hflat Hprep.
  destruct (origin_is OUnion (declared a)) eqn:Hu.
  - destruct (origin_is_union_inv _ Hu) as [args Hd].
    rewrite (prepare_union a args Hd) in Hprep.
    rewrite Hd in Hflat. cbn in Hflat.
    destruct (non_None_members args) as [| m [| m' rest]] eqn:Hm;
      try discriminate.
    injection Hprep as <-.
    assert (Hin : In m args).
    { apply non_None_members_In. rewrite Hm. now left. }
    rewrite forallb_forall in Hflat. specialize (Hflat m Hin).
    now apply negb_true_iff in Hflat.
  - rewrite (prepare_not_union a Hu) in Hprep. now injection Hprep as <-.
Qed.

(** C3: on every representable annotation (a field descriptor or a type whose
    union, if it is one, has no union among its members) normalizing the
    normalized type gives the same outcome as normalizing once. *)
Theorem prepare_type_annotation_idempotent (a : FieldArg) :
  representable a = true ->
  prepare_twice a = prepare_type_annotation a.
Proof.
  intros Hrep. unfold prepare_twice.
  destruct (prepare_type_annotation a) as [t | e] eqn:Hprep; cbn.
  - apply prepare_not_union. cbn.
    now apply prepare_result_not_union with (a := a).
  - reflexivity.
Qed.

Lemma prepare_type_annotation_idempotent_witness :
  representable (AField (mkModelField (Optional (TClass CStr)) no_info)) = true
  /\ prepare_twice (AField (mkModelField (Optional (TClass CStr)) no_info))
     = Ok (TClass CStr).
Proof.
  split; [reflexivity |].
  rewrite (prepare_type_annotation_idempotent
             (AField (mkModelField (Optional (TClass CStr)) no_info)));
    reflexivity.
Defined.

(** The hypothesis of C3 cannot be dropped in this model: a union nested in a
    union, which [typing] never builds, would be unwrapped twice. *)
Example prepare_twice_nested_union :
  prepare_type_annotation (AType (Optional (Optional (TClass CInt))))
    = Ok (Optional (TClass CInt))
  /\ prepare_twice (AType (Optional (Optional (TClass CInt))))
    = Ok (TClass CInt).
Proof. split; reflexivity. Qed.

(** C4 (amended): on a union whose origin is [typing.Union] ([Union[...]],
    [Optional[...]]) the normalizer returns the one member that is not
    [NoneType] when there is exactly one, and otherwise fails the assertion
    "Union type must have exactly one non-None type" (the spec's
    AmbiguousUnion); such a union of three non-null types fails.  The test of
    line 169 is [get_origin(type_annotation) == Union], so an annotation of
    another origin is not covered. *)
Theorem prepare_union_single_non_null (a : FieldArg) (args : list ty) :
  declared a = TGeneric OUnion args ->
  (forall m, non_None_members args = [m] ->
             prepare_type_annotation a = Ok m)
  /\ (List.length (non_None_members args) <> 1 ->
      prepare_type_annotation a = Raise (AssertionError union_assert_msg))
  /\ (forall t1 t2 t3,
        args = [t1; t2; t3] ->
        is_class CNoneType t1 = false ->
        is_class CNoneType t2 = false ->
        is_class CNoneType t3 = false ->
        prepare_type_annotation a = Raise (AssertionError union_assert_msg)).
Proof.
  intros Hd. rewrite (prepare_union a args Hd).
  split; [| split].
  - intros m ->. reflexivity.
  - intros Hlen.
    destruct (non_None_members args) as [| m [| m' rest]]; cbn in *;
      try reflexivity.
    now contradiction Hlen.
  - intros t1 t2 t3 -> H1 H2 H3. unfold non_None_members. cbn.
    now rewrite H1, H2, H3.
Qed.

Lemma prepare_union_single_non_null_witness :
  prepare_type_annotation (AType (Optional (TClass CDate))) = Ok (TClass CDate)
  /\ prepare_type_annotation
       (AType (TGeneric OUnion [TClass CNoneType]))
     = Raise (AssertionError union_assert_msg)
  /\ prepare_type_annotation
       (AType (TGeneric OUnion [TClass CInt; TClass CStr; TClass CFloat]))
     = Raise (AssertionError union_assert_msg).
Proof.
  split; [| split].
  - apply (proj1 (prepare_union_single_non_null
                    (AType (Optional (TClass CDate)))
                    [TClass CDate; TClass CNoneType] eq_refl)).
    reflexivity.
  - apply (proj1 (proj2 (prepare_union_single_non_null
                    (AType (TGeneric OUnion [TClass CNoneType]))
                    [TClass CNoneType] eq_refl))).
    cbn. discriminate.
  - apply (proj2 (proj2 (prepare_union_single_non_null
                    (AType (TGeneric OUnion
                              [TClass CInt; TClass CStr; TClass CFloat]))
                    [TClass CInt; TClass CStr; TClass CFloat] eq_refl))
             (TClass CInt) (TClass CStr) (TClass CFloat));
      reflexivity.
Defined.

(** C4 as stated fails on a union that is not built by [typing.Union]: for
    [int | None] and [int | str | float], whose origin is
    [types.UnionType], the test of line 169 is false and the normalizer
    returns the union itself; it neither unwraps the one non-null member nor
    fails on three. *)
Lemma pep604_union_is_not_unwrapped :
  prepare_type_annotation
    (AType (TGeneric UnionType [TClass CInt; TClass CNoneType]))
  = Ok (TGeneric UnionType [TClass CInt; TClass CNoneType])
  /\ prepare_type_annotation
       (AType (TGeneric UnionType [TClass CInt; TClass CNoneType]))
     <> Ok (TClass CInt)
  /\ prepare_type_annotation
       (AType (TGeneric UnionType [TClass CInt; TClass CStr; TClass CFloat]))
     = Ok (TGeneric UnionType [TClass CInt; TClass CStr; TClass CFloat])
  /\ prepare_type_annotation
       (AType (TGeneric UnionType [TClass CInt; TClass CStr; TClass CFloat]))
     <> Raise (AssertionError union_assert_msg).
Proof.
  repeat split; try reflexivity; discriminate.
Qed.

End Normalizer.

(** ** The classifier *)

Section Classifier.

Lemma is_list_not_union (t : ty) :
  origin_is OUnion t = false ->
  is_list (AType t) =
    Ok (negb (is_pydantic_base_model t)
        && (origin_is OList t || is_class CList t))%bool.
Proof.
  intros Hu. unfold is_list.
  rewrite (prepare_not_union (AType t) Hu). cbn.
  destruct (is_pydantic_base_model t), (origin_is OList t),
    (is_class CList t); reflexivity.
Qed.

Lemma is_dict_not_union (t : ty) :
  origin_is OUnion t = false ->
  is_dict (AType t) =
    Ok (is_pydantic_base_model t || origin_is ODict t || is_class CDict t)%bool.
Proof.
  intros Hu. unfold is_dict.
  rewrite (prepare_not_union (AType t) Hu). cbn.
  destruct (is_pydantic_base_model t), (origin_is ODict t),
    (is_class CDict t); reflexivity.
Qed.

(** The classifier on a type that is not a union, as one case analysis. *)
Lemma classify_not_union (a : FieldArg) (t : ty) :
  prepare_type_annotation a = Ok t ->
  origin_is OUnion t = false ->
  type_annotation_to_string a =
    match t with
    | TModel _ _ => Ok "object"
    | TGeneric OList _ | TClass CList => Ok "list"
    | TGeneric ODict _ | TClass CDict => Ok "object"
    | TClass CBool => Ok "bool"
    | TClass CDate => Ok "date"
    | TClass CFloat => Ok "float"
    | TClass CInt => Ok "integer"
    | TClass CStr => Ok "string"
    | TClass CTime => Ok "time"
    | TClass CHttpUrl => Ok "url"
    | _ => Raise (UnsupportedType t)
    end.
Proof.
  intros Hprep Hu. unfold type_annotation_to_string.
  rewrite Hprep. cbn [bind].
  rewrite (is_list_not_union t Hu), (is_dict_not_union t Hu).
  destruct t as [[] | [] args | n fs]; try reflexivity; discriminate.
Qed.

(** C5: when the normalized type of a representable annotation is none of the
    known shapes, the classifier raises the "Unsupported type" error, which
    carries that very type, and returns no tag. *)
Theorem type_annotation_to_string_unsupported (a : FieldArg) (t : ty) :
  representable a = true ->
  prepare_type_annotation a = Ok t ->
  known_shape t = false ->
  type_annotation_to_string a = Raise (UnsupportedType t)
  /\ (forall tag, type_annotation_to_string a <> Ok tag).
Proof.
  intros Hrep Hprep Hshape.
  assert (Hu : origin_is OUnion t = false)
    by now apply prepare_result_not_union with (a := a).
  assert (H : type_annotation_to_string a = Raise (UnsupportedType t)).
  { rewrite (classify_not_union a t Hprep Hu).
    destruct t as [[] | [] args | n fs]; try reflexivity; discriminate. }
  split; [exact H |]. intros tg. rewrite H. discriminate.
Qed.

Lemma type_annotation_to_string_unsupported_witness :
  type_annotation_to_string (AType (Optional (TClass (COther "bytes"))))
    = Raise (UnsupportedType (TClass (COther "bytes"))).
Proof.
  apply (type_annotation_to_string_unsupported
           (AType (Optional (TClass (COther "bytes"))))
           (TClass (COther "bytes")));
    reflexivity.
Defined.

(** Conversely every known shape gets a tag, so the error is raised on
    exactly the other types. *)
Lemma type_annotation_to_string_known (a : FieldArg) (t : ty) :
  representable a = true ->
  prepare_type_annotation a = Ok t ->
  known_shape t = true ->
  exists tag, type_annotation_to_string a = Ok tag.
Proof.
  intros Hrep Hprep Hshape.
  assert (Hu : origin_is OUnion t = false)
    by now apply prepare_result_not_union with (a := a).
  rewrite (classify_not_union a t Hprep Hu).
  destruct t as [[] | [] args | n fs]; try discriminate; eauto.
Qed.

(** Outside the representable annotations the model has unions nested in
    unions; there the second normalization inside [is_list] makes the
    classifier answer for the inner member. *)
Example classify_nested_union :
  type_annotation_to_string (AType (Optional (Optional (TClass CList))))
    = Ok "list".
Proof. reflexivity. Qed.

End Classifier.

(** ** The validator encoder *)

Section ValidatorEncoder.

Lemma Element_set_tag e k v : tag (Element_set e k v) = tag e.
Proof. reflexivity. Qed.

Lemma Element_set_children e k v : children (Element_set e k v) = children e.
Proof. reflexivity. Qed.

Lemma set_on_fails_tag_children on_fails : forall e,
  tag (fold_left
         (fun element kv => Element_set element ("on-fail-" ++ fst kv) (snd kv))
         on_fails e) = tag e
  /\ children (fold_left
         (fun element kv => Element_set element ("on-fail-" ++ fst kv) (snd kv))
         on_fails e) = children e.
Proof.
  induction on_fails as [| kv rest IH]; intros e; cbn [fold_left].
  - split; reflexivity.
  - destruct (IH (Element_set e ("on-fail-" ++ fst kv) (snd kv))) as [-> ->].
    split; reflexivity.
Qed.

(** The encoder only writes attributes. *)
Lemma add_validators_tag_children (field : FieldArg) (e : Element) :
  tag (add_validators_to_xml_element field e) = tag e
  /\ children (add_validators_to_xml_element field e) = children e.
Proof.
  unfold add_validators_to_xml_element.
  destruct field as [f | t]; [| now split].
  destruct (gd_validators (field_info f)) as [vs |]; [| now split].
  destruct (fold_left collect_validator vs ([], [])) as [fp ofs].
  destruct (Nat.ltb 0 (List.length fp)); [| now split].
  apply (set_on_fails_tag_children ofs (Element_set e "format" (join "; " fp))).
Qed.

(** C8: with the two validators "length" (on_fail named "reask") and
    "valid-choices" (no on_fail), the encoder sets [format] to the two
    serialized forms joined by "; ", then [on-fail-length] to "reask" and
    [on-fail-valid-choices] to "noop"; on the element a field starts from
    (fresh, with or without [name]) these are the only [on-fail-*]
    attributes. *)
Theorem add_validators_length_valid_choices
  (f : ModelField) (len_repr choices_repr : string) :
  gd_validators (field_info f) =
    Some [VObj len_repr "length" (Some "reask");
          VObj choices_repr "valid-choices" None] ->
  (forall e,
     add_validators_to_xml_element (AField f) e =
       Element_set
         (Element_set
            (Element_set e "format" (len_repr ++ "; " ++ choices_repr))
            "on-fail-length" "reask")
         "on-fail-valid-choices" "noop")
  /\ (forall tg,
        attrib (add_validators_to_xml_element (AField f) (E tg)) =
          [("format", len_repr ++ "; " ++ choices_repr);
           ("on-fail-length", "reask"); ("on-fail-valid-choices", "noop")])
  /\ (forall tg n,
        attrib (add_validators_to_xml_element (AField f)
                  (Element_set (E tg) "name" n)) =
          [("name", n); ("format", len_repr ++ "; " ++ choices_repr);
           ("on-fail-length", "reask"); ("on-fail-valid-choices", "noop")]
        /\ on_fail_attributes
             (add_validators_to_xml_element (AField f)
                (Element_set (E tg) "name" n)) =
           [("on-fail-length", "reask"); ("on-fail-valid-choices", "noop")]).
Proof.
  intros Hv.
  assert (H : forall e,
     add_validators_to_xml_element (AField f) e =
       Element_set
         (Element_set
            (Element_set e "format" (len_repr ++ "; " ++ choices_repr))
            "on-fail-length" "reask")
         "on-fail-valid-choices" "noop").
  { intros e. unfold add_validators_to_xml_element. rewrite Hv. reflexivity. }
  split; [exact H | split].
  - intros tg. rewrite H. reflexivity.
  - intros tg n. rewrite H. split; reflexivity.
Qed.

Lemma add_validators_length_valid_choices_witness :
  on_fail_attributes
    (add_validators_to_xml_element
       (AField (mkModelField (TClass CStr)
                  (mkFieldInfo None
                     (Some [VObj "length: 1 10" "length" (Some "reask");
                            VObj "valid-choices: a b" "valid-choices" None])
                     None)))
       (Element_set (E "string") "name" "code"))
  = [("on-fail-length", "reask"); ("on-fail-valid-choices", "noop")].
Proof.
  apply (add_validators_length_valid_choices
           (mkModelField (TClass CStr)
              (mkFieldInfo None
                 (Some [VObj "length: 1 10" "length" (Some "reask");
                        VObj "valid-choices: a b" "valid-choices" None])
                 None))
           "length: 1 10" "valid-choices: a b" eq_refl).
Defined.

End ValidatorEncoder.

(** ** The tree builder *)

Section TreeBuilder.

Lemma fbind_assoc {A B C : Type} (m : fueled A) (k : A -> fueled B)
  (h : B -> fueled C) :
  fbind (fbind m k) h = fbind m (fun a => fbind (k a) h).
Proof. destruct m as [[a | e] |]; reflexivity. Qed.

Lemma fbind_ext {A B : Type} (m : fueled A) (k k' : A -> fueled B) :
  (forall a, k a = k' a) -> fbind m k = fbind m k'.
Proof. intros H. destruct m as [[a | e] |]; cbn; auto. Qed.

Lemma collect_ext {X Y : Type} (f g : X -> fueled Y) (xs : list X) :
  (forall x, In x xs -> f x = g x) -> collect f xs = collect g xs.
Proof.
  induction xs as [| x xs IH]; intros H; cbn; [reflexivity |].
  rewrite (H x (or_introl eq_refl)), IH; [reflexivity |].
  intros y Hy. apply H. now right.
Qed.

Lemma collect_app {X Y : Type} (f : X -> fueled Y) (xs ys : list X) :
  collect f (xs ++ ys) =
    (a <~ collect f xs ;; b <~ collect f ys ;; Some (Ok (a ++ b)%list)).
Proof.
  induction xs as [| x xs IH]; cbn.
  - destruct (collect f ys) as [[b | e] |]; reflexivity.
  - destruct (f x) as [[y | e] |]; cbn; try reflexivity.
    rewrite IH.
    destruct (collect f xs) as [[a | e] |]; cbn; try reflexivity.
    destruct (collect f ys) as [[b | e] |]; reflexivity.
Qed.

Lemma filter_all {X : Type} (xs : list X) : filter (fun _ => true) xs = xs.
Proof. induction xs as [| x xs IH]; cbn; congruence. Qed.

(** A loop that appends one built child per item that is not skipped yields
    the children it started with followed by the built ones, in order. *)
Lemma for_each_append_collect {X : Type} (skip : X -> bool)
  (g : X -> fueled Element) (body : Element -> X -> fueled Element) :
  (forall el x,
     body el x =
       if skip x then Some (Ok el)
       else (e <~ g x ;; Some (Ok (Element_append el e)))) ->
  forall xs el,
    for_each body xs el =
      (cs <~ collect g (filter (fun x => negb (skip x)) xs) ;;
       Some (Ok (mkElement (tag el) (attrib el) (children el ++ cs)%list))).
Proof.
  intros Hbody. induction xs as [| x xs IH]; intros el; cbn.
  - rewrite app_nil_r. now destruct el.
  - rewrite Hbody. destruct (skip x); cbn.
    + apply IH.
    + destruct (g x) as [[e | ex] |]; cbn; try reflexivity.
      rewrite IH. cbn.
      destruct (collect g (filter (fun x0 => negb (skip x0)) xs))
        as [[cs | ex] |]; cbn; try reflexivity.
      now rewrite <- app_assoc.
Qed.

Lemma field_unfold (fuel : nat) (field : FieldArg) (field_name : option string) :
  create_xml_element_for_field (S fuel) field field_name =
    (field_type <~ lift (type_annotation_to_string field) ;;
     let element := field_element_head field field_name field_type in
     if (String.eqb field_type "list" || String.eqb field_type "object")%bool
     then
       type_annotation <~ lift (prepare_type_annotation field) ;;
       l <~ lift (is_list (AType type_annotation)) ;;
       if l then
         match get_args type_annotation with
         | [] => Some (Raise IndexError)
         | inner_type :: _ =>
             if is_pydantic_base_model inner_type then
               object_element <~
                 create_xml_element_for_base_model fuel inner_type None ;;
               Some (Ok (Element_append element object_element))
             else
               inner_element <~
                 create_xml_element_for_field fuel (AType inner_type) None ;;
               Some (Ok (Element_append element inner_element))
         end
       else
         d <~ lift (is_dict (AType type_annotation)) ;;
         if d then
           if is_pydantic_base_model type_annotation then
             create_xml_element_for_base_model fuel type_annotation
               (Some element)
           else
             match get_args type_annotation with
             | [key_type; val_type] =>
                 if is_class CStr key_type then
                   inner_element <~
                     create_xml_element_for_field fuel (AType val_type) None ;;
                   Some (Ok (Element_append element inner_element))
                 else Some (Raise (AssertionError dict_key_assert_msg))
             | _ => Some (Ok element)
             end
         else Some (Raise (UnsupportedType type_annotation))
     else Some (Ok element)).
Proof. reflexivity. Qed.

(** [create_xml_element_for_base_model] without its loops: the accumulator
    keeps its tag, attributes and children, and gains the elements of the
    fields that are not skipped, then one [choice] per discriminator key. *)
Lemma base_model_unfold (fuel : nat) (cls : string)
  (fields : list (string * ModelField)) (element : option Element) :
  create_xml_element_for_base_model (S fuel) (TModel cls fields) element =
    (let acc := match element with Some e => e | None => E "object" end in
     direct <~ collect (named_field fuel) (direct_fields fields) ;;
     choices <~ collect (choice_of fuel) (fst (when_groups fields)) ;;
     Some (Ok (mkElement (tag acc) (attrib acc)
                 (children acc ++ direct ++ choices)%list))).
Proof.
  cbn [create_xml_element_for_base_model __fields__ lift fbind].
  unfold direct_fields, when_groups.
  destruct (fold_left identify_when fields ([], [])) as [ch cs].
  cbn [fst snd].
  set (acc := match element with Some e => e | None => E "object" end).
  rewrite (for_each_append_collect
             (fun nf => (dict_mem (fst nf) ch || set_mem (fst nf) cs)%bool)
             (named_field fuel)).
  2:{ intros el [n f]. reflexivity. }
  rewrite fbind_assoc. apply fbind_ext. intros direct. cbn [fbind].
  rewrite (for_each_append_collect (fun _ => false) (choice_of fuel)).
  2:{ intros el [w group]. cbn [negb]. unfold choice_of. cbn [fst snd].
      rewrite (for_each_append_collect (fun _ => false) (case_of fuel)).
      2:{ intros c [n f]. unfold case_of, named_field. cbn [fst snd negb].
          rewrite fbind_assoc. apply fbind_ext. intros e. reflexivity. }
      cbn [negb]. rewrite filter_all, !fbind_assoc.
      apply fbind_ext. intros cases. reflexivity. }
  cbn [negb tag attrib children]. rewrite filter_all.
  apply fbind_ext. intros choices. now rewrite <- app_assoc.
Qed.

(** *** Fuel: enough of it always exists and more never changes the result *)

Lemma refines_refl {A : Type} (m : fueled A) : refines m m.
Proof. now intros r. Qed.

Lemma refines_fbind {A B : Type} (m m' : fueled A) (k k' : A -> fueled B) :
  refines m m' -> (forall a, refines (k a) (k' a)) ->
  refines (fbind m k) (fbind m' k').
Proof.
  intros Hm Hk r. destruct m as [[a | e] |] eqn:E; cbn; try discriminate.
  - rewrite (Hm _ eq_refl). cbn. apply Hk.
  - rewrite (Hm _ eq_refl). cbn. auto.
Qed.

Lemma refines_collect {X Y : Type} (f g : X -> fueled Y) (xs : list X) :
  (forall x, refines (f x) (g x)) -> refines (collect f xs) (collect g xs).
Proof.
  intros H. induction xs as [| x xs IH]; cbn; [apply refines_refl |].
  apply refines_fbind; [apply H |]. intros y.
  apply refines_fbind; [apply IH |]. intros ys. apply refines_refl.
Qed.

Lemma base_model_not_model (fuel : nat) (model : ty) (element : option Element) :
  is_pydantic_base_model model = false ->
  create_xml_element_for_base_model (S fuel) model element =
    Some (Raise (AttributeError "__fields__")).
Proof. destruct model; [reflexivity | reflexivity | discriminate]. Qed.

Lemma fuel_monotone (fuel : nat) :
  (forall field name,
     refines (create_xml_element_for_field fuel field name)
             (create_xml_element_for_field (S fuel) field name))
  /\ (forall model element,
        refines (create_xml_element_for_base_model fuel model element)
                (create_xml_element_for_base_model (S fuel) model element)).
Proof.
  induction fuel as [| fuel [IHf IHb]].
  - split; intros; intros r; discriminate.
  - split.
    + intros field name. rewrite !field_unfold.
      apply refines_fbind; [apply refines_refl |]. intros ft. cbn zeta.
      destruct (String.eqb ft "list" || String.eqb ft "object")%bool;
        [| apply refines_refl].
      apply refines_fbind; [apply refines_refl |]. intros t.
      apply refines_fbind; [apply refines_refl |]. intros [|].
      * destruct (get_args t) as [| inner rest]; [apply refines_refl |].
        destruct (is_pydantic_base_model inner);
          (apply refines_fbind; [auto | intros; apply refines_refl]).
      * apply refines_fbind; [apply refines_refl |]. intros [|];
          [| apply refines_refl].
        destruct (is_pydantic_base_model t); [apply IHb |].
        destruct (get_args t) as [| k [| v [| x rest]]];
          try apply refines_refl.
        destruct (is_class CStr k); [| apply refines_refl].
        apply refines_fbind; [auto | intros; apply refines_refl].
    + intros model element. destruct model as [c | o args | cls fields].
      * rewrite !base_model_not_model by reflexivity. apply refines_refl.
      * rewrite !base_model_not_model by reflexivity. apply refines_refl.
      * rewrite !base_model_unfold. cbn zeta.
        apply refines_fbind.
        { apply refines_collect. intros nf. apply IHf. }
        intros direct. apply refines_fbind; [| intros; apply refines_refl].
        apply refines_collect. intros g. unfold choice_of.
        apply refines_fbind; [| intros; apply refines_refl].
        apply refines_collect. intros nf. unfold case_of.
        apply refines_fbind; [apply IHf | intros; apply refines_refl].
Qed.

(** Once a result is reached, any larger fuel reaches the same result. *)
Lemma fuel_monotone_le (n m : nat) (field : FieldArg) (name : option string)
  (r : exc Element) :
  n <= m ->
  create_xml_element_for_field n field name = Some r ->
  create_xml_element_for_field m field name = Some r.
Proof.
  induction 1 as [| m Hle IH]; [easy |].
  intros H. apply (proj1 (fuel_monotone m)). auto.
Qed.

Lemma base_model_monotone_le (n m : nat) (model : ty) (el : option Element)
  (r : exc Element) :
  n <= m ->
  create_xml_element_for_base_model n model el = Some r ->
  create_xml_element_for_base_model m model el = Some r.
Proof.
  induction 1 as [| m Hle IH]; [easy |].
  intros H. apply (proj2 (fuel_monotone m)). auto.
Qed.

(** The result does not depend on how much fuel was given. *)
Lemma fuel_irrelevant (n m : nat) (field : FieldArg) (name : option string)
  (r r' : exc Element) :
  create_xml_element_for_field n field name = Some r ->
  create_xml_element_for_field m field name = Some r' ->
  r = r'.
Proof.
  intros Hn Hm.
  apply (fuel_monotone_le n (Nat.max n m)) in Hn; [| lia].
  apply (fuel_monotone_le m (Nat.max n m)) in Hm; [| lia].
  congruence.
Qed.

Lemma list_max_map_In {X : Type} (f : X -> nat) (xs : list X) (x : X) :
  In x xs -> f x <= list_max (map f xs).
Proof.
  induction xs as [| y ys IH]; [easy |].
  change (list_max (map f (y :: ys)))
    with (Nat.max (f y) (list_max (map f ys))).
  intros [-> | H]; [apply Nat.le_max_l |].
  specialize (IH H). lia.
Qed.

Lemma depth_arg (o : Origin) (args : list ty) (x : ty) :
  In x args -> depth x < depth (TGeneric o args).
Proof.
  intros H. cbn. apply Nat.lt_succ_r. now apply list_max_map_In.
Qed.

Lemma depth_field (cls : string) (fields : list (string * ModelField))
  (nf : string * ModelField) :
  In nf fields -> depth (annotation (snd nf)) < depth (TModel cls fields).
Proof.
  intros H. cbn. apply Nat.lt_succ_r.
  now apply (list_max_map_In (fun nf => depth (annotation (snd nf)))).
Qed.

Lemma depth_prepare (a : FieldArg) (t : ty) :
  prepare_type_annotation a = Ok t -> depth t <= depth (declared a).
Proof.
  intros Hprep. destruct (origin_is OUnion (declared a)) eqn:Hu.
  - destruct (origin_is_union_inv _ Hu) as [args Hd].
    rewrite (prepare_union a args Hd) in Hprep. rewrite Hd.
    destruct (non_None_members args) as [| m [| m' rest]] eqn:Hm;
      try discriminate.
    injection Hprep as <-.
    apply Nat.lt_le_incl, depth_arg, non_None_members_In.
    rewrite Hm. now left.
  - rewrite (prepare_not_union a Hu) in Hprep. injection Hprep as <-. lia.
Qed.

Lemma collect_defined {X Y : Type} (f : X -> fueled Y) (xs : list X) :
  (forall x, In x xs -> exists r, f x = Some r) ->
  exists r, collect f xs = Some r.
Proof.
  induction xs as [| x xs IH]; intros H; cbn; [eauto |].
  destruct (H x (or_introl eq_refl)) as [[y | e] ->]; cbn; [| eauto].
  destruct IH as [[ys | e] ->]; cbn; eauto.
  intros z Hz. apply H. now right.
Qed.

Lemma defaultdict_append_In {V : Type} (k : string) (v : V)
  (d : list (string * list V)) (k' : string) (g : list V) :
  In (k', g) (defaultdict_append k v d) ->
  In (k', g) d \/ exists g0, g = (g0 ++ [v])%list /\ (g0 = [] \/ In (k', g0) d).
Proof.
  induction d as [| [k0 g0] d IH]; cbn.
  - intros [H | []]. injection H as <- <-. right. exists []. auto.
  - destruct (String.eqb k0 k); cbn.
    + intros [H | H]; [| auto]. injection H as <- <-.
      right. exists g0. auto.
    + intros [H | H]; [auto |].
      destruct (IH H) as [H' | (g1 & -> & [-> | H'])]; [auto | |].
      * right. exists []. auto.
      * right. exists g1. auto.
Qed.

(** Every entry of a discriminator group is a field of the model that
    carries a discriminator key. *)
Lemma when_groups_entries (P : string * ModelField -> Prop)
  (fields : list (string * ModelField)) :
  forall st,
    (forall k g nf, In (k, g) (fst st) -> In nf g -> P nf) ->
    (forall nf, In nf fields -> has_when (snd nf) = true -> P nf) ->
    forall k g nf,
      In (k, g) (fst (fold_left identify_when fields st)) ->
      In nf g -> P nf.
Proof.
  induction fields as [| [n f] fields IH]; intros st Hst Hsub; cbn;
    [exact Hst |].
  apply IH; [| intros; apply Hsub; [now right | assumption]].
  destruct st as [ch cs]. unfold identify_when.
  destruct (when (field_info f)) as [w |] eqn:Hw; [| exact Hst].
  destruct (truthy (Some w)) eqn:Ht; [| exact Hst].
  assert (HP : P (n, f)).
  { apply Hsub; [now left |]. unfold has_when. cbn [snd]. now rewrite Hw. }
  cbn [fst]. intros k g nf Hin Hnf.
  destruct (defaultdict_append_In _ _ _ _ _ Hin)
    as [H | (g0 & -> & [-> | H])].
  - eapply Hst; eauto.
  - now destruct Hnf as [<- | []].
  - apply in_app_or in Hnf. destruct Hnf as [Hnf | [<- | []]].
    + eapply Hst; eauto.
    + exact HP.
Qed.

Lemma enough_fuel_both (fuel : nat) :
  (forall field name,
     2 * depth (declared field) + 2 <= fuel ->
     exists r, create_xml_element_for_field fuel field name = Some r)
  /\ (forall model element,
        2 * depth model + 1 <= fuel ->
        exists r, create_xml_element_for_base_model fuel model element = Some r).
Proof.
  induction fuel as [| fuel [IHf IHb]]; [split; intros; lia |].
  split.
  - intros field name Hfuel. rewrite field_unfold.
    destruct (type_annotation_to_string field) as [ft | e]; cbn; [| eauto].
    destruct (String.eqb ft "list" || String.eqb ft "object")%bool; [| eauto].
    destruct (prepare_type_annotation field) as [t | e] eqn:Hprep; cbn;
      [| eauto].
    apply depth_prepare in Hprep.
    destruct (is_list (AType t)) as [[|] | e]; cbn; [| | eauto].
    + destruct t as [c | o args | cls fs]; cbn [get_args]; eauto.
      destruct args as [| inner rest]; [eauto |].
      assert (Hd : depth inner < depth (TGeneric o (inner :: rest)))
        by (apply depth_arg; now left).
      destruct (is_pydantic_base_model inner).
      * destruct (IHb inner None) as [[e | e] ->]; cbn; eauto. lia.
      * destruct (IHf (AType inner) None) as [[e | e] ->]; cbn; eauto.
        cbn. lia.
    + destruct (is_dict (AType t)) as [[|] | e]; cbn; eauto.
      destruct (is_pydantic_base_model t); [apply IHb; lia |].
      destruct t as [c | o args | cls fs]; cbn [get_args]; eauto.
      destruct args as [| k [| v [| x rest]]]; eauto.
      destruct (is_class CStr k); [| eauto].
      assert (Hd : depth v < depth (TGeneric o [k; v]))
        by (apply depth_arg; cbn; auto).
      destruct (IHf (AType v) None) as [[e | e] ->]; cbn; eauto.
      cbn. lia.
  - intros model element Hfuel. destruct model as [c | o args | cls fields].
    + rewrite base_model_not_model by reflexivity. eauto.
    + rewrite base_model_not_model by reflexivity. eauto.
    + rewrite base_model_unfold. cbn zeta.
      assert (Hnamed : forall nf, In nf fields ->
                exists r, named_field fuel nf = Some r).
      { intros nf Hin. apply IHf. cbn [declared].
        pose proof (depth_field cls fields nf Hin). lia. }
      destruct (collect_defined (named_field fuel) (direct_fields fields))
        as [[direct | e] ->]; cbn; eauto.
      { intros nf Hin. apply Hnamed. unfold direct_fields in Hin.
        apply filter_In in Hin. tauto. }
      destruct (collect_defined (choice_of fuel) (fst (when_groups fields)))
        as [[choices | e] ->]; cbn; eauto.
      intros [k g] Hg. unfold choice_of. cbn [snd fst].
      destruct (collect_defined (case_of fuel) g) as [[cases | e] ->];
        cbn; eauto.
      intros nf Hnf. unfold case_of.
      destruct (Hnamed nf) as [[e | e] ->]; cbn; eauto.
      apply (when_groups_entries (fun nf => In nf fields) fields ([], []))
        with (k := k) (g := g); auto.
      cbn. intros ? ? ? [].
Qed.

(** Totality: with [enough_fuel] the field builder returns an element or
    raises, for every field and name; it never runs out of fuel. *)
Theorem create_xml_element_for_field_total (field : FieldArg)
  (name : option string) (fuel : nat) :
  enough_fuel field <= fuel ->
  exists r, create_xml_element_for_field fuel field name = Some r.
Proof. apply (proj1 (enough_fuel_both fuel)). Qed.

Theorem create_xml_element_for_base_model_total (model : ty)
  (element : option Element) (fuel : nat) :
  2 * depth model + 1 <= fuel ->
  exists r, create_xml_element_for_base_model fuel model element = Some r.
Proof. apply (proj2 (enough_fuel_both fuel)). Qed.

(** *** The element a field starts from *)

Lemma field_element_head_tag_children (field : FieldArg)
  (name : option string) (ft : string) :
  tag (field_element_head field name ft) = ft
  /\ children (field_element_head field name ft) = [].
Proof.
  unfold field_element_head.
  set (e0 := match name with
             | Some n => if truthy name then Element_set (E ft) "name" n
                         else E ft
             | None => E ft
             end).
  assert (H0 : tag e0 = ft /\ children e0 = []).
  { subst e0. destruct name as [n |]; [destruct (truthy (Some n)) |];
      split; reflexivity. }
  destruct (add_validators_tag_children field e0) as [Ht Hc].
  destruct H0 as [H0t H0c].
  destruct field as [f | t]; [destruct (description (field_info f)) |];
    cbn [tag children Element_set]; rewrite ?Ht, ?Hc; auto.
Qed.

Lemma dict_get_set_other {V : Type} (k k' : string) (v : V)
  (d : list (string * V)) :
  String.eqb k' k = false ->
  dict_get k (dict_set k' v d) = dict_get k d.
Proof.
  intros Hne. induction d as [| [k0 v0] d IH]; cbn.
  - now rewrite Hne.
  - destruct (String.eqb k0 k') eqn:E0; cbn.
    + apply String.eqb_eq in E0. subst k0. now rewrite Hne.
    + now rewrite IH.
Qed.

Lemma on_fail_key_not_name (alias : string) :
  String.eqb ("on-fail-" ++ alias) "name" = false.
Proof. reflexivity. Qed.

(** A non-empty [name] is still there, with its value, when the head of the
    element is complete. *)
Lemma field_element_head_name (field : FieldArg) (n ft : string) :
  truthy (Some n) = true ->
  dict_get "name" (attrib (field_element_head field (Some n) ft)) = Some n.
Proof.
  intros Hn. unfold field_element_head. rewrite Hn.
  set (e0 := Element_set (E ft) "name" n).
  assert (H0 : dict_get "name" (attrib e0) = Some n) by reflexivity.
  assert (H1 : dict_get "name"
                 (attrib (add_validators_to_xml_element field e0)) = Some n).
  { unfold add_validators_to_xml_element.
    destruct field as [f | t]; [| exact H0].
    destruct (gd_validators (field_info f)) as [vs |]; [| exact H0].
    destruct (fold_left collect_validator vs ([], [])) as [fp ofs].
    destruct (Nat.ltb 0 (List.length fp)); [| exact H0].
    assert (H : dict_get "name"
                  (attrib (Element_set e0 "format" (join "; " fp))) = Some n)
      by reflexivity.
    revert H. generalize (Element_set e0 "format" (join "; " fp)).
    induction ofs as [| kv rest IH]; intros e He; cbn [fold_left];
      [exact He |].
    apply IH. cbn [attrib Element_set].
    rewrite dict_get_set_other; [exact He | apply on_fail_key_not_name]. }
  destruct field as [f | t]; [| exact H1].
  destruct (description (field_info f)) as [d |]; [| exact H1].
  cbn [attrib Element_set]. now rewrite dict_get_set_other.
Qed.

(** What "classified as list" says about the normalized type. *)
Lemma classified_list (field : FieldArg) (t : ty) :
  type_annotation_to_string field = Ok "list" ->
  prepare_type_annotation field = Ok t ->
  is_list (AType t) = Ok true.
Proof.
  unfold type_annotation_to_string. intros Hcls Hprep.
  rewrite Hprep in Hcls. cbn [bind] in Hcls.
  destruct (is_list (AType t)) as [[|] | e]; cbn [bind] in Hcls;
    [reflexivity | | discriminate].
  destruct (is_dict (AType t)) as [[|] | e]; cbn [bind] in Hcls;
    try discriminate.
  repeat match type of Hcls with
         | (if ?c then _ else _) = _ => destruct c; try discriminate
         end.
Qed.

(** C1 (what the code does): when a field is classified as a list and its
    normalized type has no type argument, the field builder raises
    [IndexError]: after the [pass] under [len(inner_type) == 0] the source
    still evaluates [inner_type[0]].  It does not return a childless list
    element. *)
Theorem list_without_element_type_raises (field : FieldArg) (t : ty) :
  type_annotation_to_string field = Ok "list" ->
  prepare_type_annotation field = Ok t ->
  get_args t = [] ->
  forall fuel name,
    create_xml_element_for_field (S fuel) field name = Some (Raise IndexError).
Proof.
  intros Hcls Hprep Hargs fuel name.
  rewrite field_unfold, Hcls. cbn [lift fbind String.eqb Ascii.eqb orb].
  cbv zeta. cbn [String.eqb Ascii.eqb Bool.eqb orb].
  rewrite Hprep. cbn [fbind].
  rewrite (classified_list field t Hcls Hprep). cbn [fbind].
  now rewrite Hargs.
Qed.

Lemma list_without_element_type_raises_witness :
  create_xml_element_for_field 1 (AType (TGeneric OList [])) (Some "items")
    = Some (Raise IndexError)
  /\ create_xml_element_for_field 1
       (AField (mkModelField (Optional (TClass CList)) no_info)) (Some "items")
     = Some (Raise IndexError).
Proof.
  split.
  - apply (list_without_element_type_raises
             (AType (TGeneric OList [])) (TGeneric OList []));
      reflexivity.
  - apply (list_without_element_type_raises
             (AField (mkModelField (Optional (TClass CList)) no_info))
             (TClass CList));
      reflexivity.
Defined.

Lemma field_unfold_object (fuel : nat) (field : FieldArg)
  (name : option string) (t : ty) :
  prepare_type_annotation field = Ok t ->
  is_list (AType t) = Ok false ->
  is_dict (AType t) = Ok true ->
  create_xml_element_for_field (S fuel) field name =
    (let element := field_element_head field name "object" in
     if is_pydantic_base_model t then
       create_xml_element_for_base_model fuel t (Some element)
     else
       match get_args t with
       | [key_type; val_type] =>
           if is_class CStr key_type then
             inner_element <~
               create_xml_element_for_field fuel (AType val_type) None ;;
             Some (Ok (Element_append element inner_element))
           else Some (Raise (AssertionError dict_key_assert_msg))
       | _ => Some (Ok element)
       end).
Proof.
  intros Hprep Hl Hd. rewrite field_unfold.
  unfold type_annotation_to_string. rewrite Hprep. cbn [bind].
  rewrite Hl. cbn [bind]. rewrite Hd. cbn [bind lift fbind].
  cbv zeta. cbn [String.eqb Ascii.eqb Bool.eqb orb].
  rewrite ?Hprep. cbn [fbind]. rewrite ?Hl. cbn [fbind].
  rewrite ?Hd. reflexivity.
Qed.

(** C6: when the normalized type of a field is a keyed mapping with two type
    arguments, a key type other than [str] fails the assertion "Only string
    keys are supported for dicts" (the spec's UnsupportedKeyType); with [str]
    keys the builder builds the value type without a name and the resulting
    object element has that element as its only child. *)
Theorem dict_field_key_type (field : FieldArg) (key_type val_type : ty) :
  prepare_type_annotation field = Ok (TGeneric ODict [key_type; val_type]) ->
  forall fuel name,
    (is_class CStr key_type = false ->
     create_xml_element_for_field (S fuel) field name =
       Some (Raise (AssertionError dict_key_assert_msg)))
    /\ (is_class CStr key_type = true ->
        create_xml_element_for_field (S fuel) field name =
          (inner_element <~
             create_xml_element_for_field fuel (AType val_type) None ;;
           Some (Ok (mkElement "object"
                       (attrib (field_element_head field name "object"))
                       [inner_element])))).
Proof.
  intros Hprep fuel name.
  rewrite (field_unfold_object fuel field name _ Hprep);
    [| reflexivity | reflexivity].
  cbn [is_pydantic_base_model get_args]. cbv zeta.
  destruct (field_element_head_tag_children field name "object") as [Ht Hc].
  split; intros ->; [reflexivity |].
  apply fbind_ext. intros inner. unfold Element_append.
  now rewrite Ht, Hc.
Qed.

Lemma dict_field_key_type_witness :
  create_xml_element_for_field 2
    (AType (TGeneric ODict [TClass CInt; TClass CStr])) (Some "by_id")
    = Some (Raise (AssertionError dict_key_assert_msg))
  /\ create_xml_element_for_field 2
       (AType (TGeneric ODict [TClass CStr; TClass CInt])) (Some "by_name")
     = Some (Ok (mkElement "object" [("name", "by_name")]
                   [mkElement "integer" [] []])).
Proof.
  split.
  - apply (proj1 (dict_field_key_type
                    (AType (TGeneric ODict [TClass CInt; TClass CStr]))
                    (TClass CInt) (TClass CStr) eq_refl 1 (Some "by_id"))).
    reflexivity.
  - rewrite (proj2 (dict_field_key_type
                      (AType (TGeneric ODict [TClass CStr; TClass CInt]))
                      (TClass CStr) (TClass CInt) eq_refl 1 (Some "by_name"))
               eq_refl).
    reflexivity.
Defined.

(** The accumulator handed to [create_xml_element_for_base_model] comes back
    with its tag and attributes as they were and with children added at the
    end only. *)
Lemma base_model_frame (fuel : nat) (model : ty) (acc e : Element) :
  create_xml_element_for_base_model fuel model (Some acc) = Some (Ok e) ->
  tag e = tag acc /\ attrib e = attrib acc
  /\ exists added, children e = (children acc ++ added)%list.
Proof.
  destruct fuel as [| fuel]; [discriminate |].
  destruct model as [c | o args | cls fields];
    try (rewrite base_model_not_model by reflexivity; discriminate).
  rewrite base_model_unfold. cbv zeta.
  destruct (collect (named_field fuel) (direct_fields fields))
    as [[direct | ex] |]; cbn [fbind]; try discriminate.
  destruct (collect (choice_of fuel) (fst (when_groups fields)))
    as [[choices | ex] |]; cbn [fbind]; try discriminate.
  intros H. injection H as <-. cbn. eauto.
Qed.

(** C9: for a field whose normalized type is a nested record, the builder
    hands the element it has prepared (tag "object", then [name], [format],
    [on-fail-*], [description]) to [create_xml_element_for_base_model] as the
    accumulator; the element returned has exactly those attributes, a
    non-empty [name] among them, and its children are the ones the record
    added. *)
Theorem nested_record_keeps_attributes (field : FieldArg) (cls : string)
  (fields : list (string * ModelField)) :
  prepare_type_annotation field = Ok (TModel cls fields) ->
  forall fuel name,
    create_xml_element_for_field (S fuel) field name =
      create_xml_element_for_base_model fuel (TModel cls fields)
        (Some (field_element_head field name "object"))
    /\ (forall e,
          create_xml_element_for_field (S fuel) field name = Some (Ok e) ->
          tag e = "object"
          /\ attrib e = attrib (field_element_head field name "object")
          /\ (forall n, name = Some n -> truthy name = true ->
                        dict_get "name" (attrib e) = Some n)).
Proof.
  intros Hprep fuel name.
  assert (Heq : create_xml_element_for_field (S fuel) field name =
      create_xml_element_for_base_model fuel (TModel cls fields)
        (Some (field_element_head field name "object"))).
  { rewrite (field_unfold_object fuel field name _ Hprep); reflexivity. }
  split; [exact Heq |].
  intros e He. rewrite Heq in He.
  destruct (base_model_frame _ _ _ _ He) as (Ht & Ha & _).
  destruct (field_element_head_tag_children field name "object") as [Ht0 _].
  split; [congruence | split; [exact Ha |]].
  intros n -> Hn. rewrite Ha. now apply field_element_head_name.
Qed.

Lemma nested_record_keeps_attributes_witness :
  create_xml_element_for_field 3
    (AField (mkModelField (Optional Circle)
               (mkFieldInfo (Some "outline")
                  (Some [VObj "two-words" "two-words" (Some "reask")]) None)))
    (Some "c")
  = Some (Ok (mkElement "object"
                [("name", "c"); ("format", "two-words");
                 ("on-fail-two-words", "reask"); ("description", "outline")]
                [mkElement "float" [("name", "radius")] []])).
Proof.
  rewrite (proj1 (nested_record_keeps_attributes
             (AField (mkModelField (Optional Circle)
                        (mkFieldInfo (Some "outline")
                           (Some [VObj "two-words" "two-words" (Some "reask")])
                           None)))
             "Circle" [("radius", mkModelField (TClass CFloat) no_info)]
             eq_refl 2 (Some "c"))).
  reflexivity.
Defined.

(** *** The grouping loop *)

Lemma identify_when_no_when st (n : string) (f : ModelField) :
  has_when f = false -> identify_when st (n, f) = st.
Proof.
  unfold has_when, identify_when. destruct st as [ch cs].
  destruct (when (field_info f)) as [w |]; [| reflexivity].
  now intros ->.
Qed.

Lemma identify_when_has_when ch cs (n w : string) (f : ModelField) :
  when (field_info f) = Some w -> truthy (Some w) = true ->
  identify_when (ch, cs) (n, f)
    = (defaultdict_append w (n, f) ch, n :: cs).
Proof. unfold identify_when. now intros -> ->. Qed.

Lemma fold_identify_no_when (fields : list (string * ModelField)) st :
  Forall (fun nf => has_when (snd nf) = false) fields ->
  fold_left identify_when fields st = st.
Proof.
  induction 1 as [| [n f] fields Hf _ IH]; cbn [fold_left]; [reflexivity |].
  now rewrite identify_when_no_when.
Qed.

Lemma direct_fields_no_when (fields : list (string * ModelField)) :
  Forall (fun nf => has_when (snd nf) = false) fields ->
  when_groups fields = ([], []) /\ direct_fields fields = fields.
Proof.
  intros H. assert (Hg : when_groups fields = ([], []))
    by now apply fold_identify_no_when.
  split; [exact Hg |]. unfold direct_fields. rewrite Hg. cbn.
  apply filter_all.
Qed.

(** Without discriminator keys the children are the fields' elements in
    declaration order, whatever the number of fields. *)
Lemma base_model_no_when (fuel : nat) (cls : string)
  (fields : list (string * ModelField)) :
  Forall (fun nf => has_when (snd nf) = false) fields ->
  create_xml_element_for_base_model (S fuel) (TModel cls fields) None =
    (cs <~ collect (named_field fuel) fields ;;
     Some (Ok (mkElement "object" [] cs))).
Proof.
  intros H. rewrite base_model_unfold.
  destruct (direct_fields_no_when fields H) as [-> ->]. cbv zeta.
  apply fbind_ext. intros cs. cbn. now rewrite app_nil_r.
Qed.

(** C7: a model whose fields [a], [b], [c] (in this order) carry no
    discriminator key yields an object element whose children are the
    elements of [a], [b] and [c] in this order; two calls on the same model
    give the same outcome. *)
Theorem base_model_declaration_order (fuel : nat) (cls a b c : string)
  (fa fb fc : ModelField) :
  has_when fa = false -> has_when fb = false -> has_when fc = false ->
  create_xml_element_for_base_model (S fuel)
    (TModel cls [(a, fa); (b, fb); (c, fc)]) None =
    (ea <~ create_xml_element_for_field fuel (AField fa) (Some a) ;;
     eb <~ create_xml_element_for_field fuel (AField fb) (Some b) ;;
     ec <~ create_xml_element_for_field fuel (AField fc) (Some c) ;;
     Some (Ok (mkElement "object" [] [ea; eb; ec])))
  /\ (forall first second,
        create_xml_element_for_base_model (S fuel)
          (TModel cls [(a, fa); (b, fb); (c, fc)]) None = first ->
        create_xml_element_for_base_model (S fuel)
          (TModel cls [(a, fa); (b, fb); (c, fc)]) None = second ->
        first = second).
Proof.
  intros Ha Hb Hc. split; [| congruence].
  rewrite base_model_no_when by (repeat constructor; assumption).
  cbn [collect]. unfold named_field. cbn [fst snd].
  destruct (create_xml_element_for_field fuel (AField fa) (Some a))
    as [[ea | e] |]; cbn [fbind]; try reflexivity.
  destruct (create_xml_element_for_field fuel (AField fb) (Some b))
    as [[eb | e] |]; cbn [fbind]; try reflexivity.
  destruct (create_xml_element_for_field fuel (AField fc) (Some c))
    as [[ec | e] |]; reflexivity.
Qed.

Lemma base_model_declaration_order_witness :
  create_xml_element_for_base_model 2
    (TModel "Point"
       [("a", mkModelField (TClass CInt) no_info);
        ("b", mkModelField (TClass CStr) no_info);
        ("c", mkModelField (TClass CBool) no_info)]) None
  = Some (Ok (mkElement "object" []
                [mkElement "integer" [("name", "a")] [];
                 mkElement "string" [("name", "b")] [];
                 mkElement "bool" [("name", "c")] []])).
Proof.
  refine (eq_trans
            (proj1 (base_model_declaration_order 1 "Point" "a" "b" "c"
                      (mkModelField (TClass CInt) no_info)
                      (mkModelField (TClass CStr) no_info)
                      (mkModelField (TClass CBool) no_info)
                      eq_refl eq_refl eq_refl)) _).
  reflexivity.
Defined.

(** *** Names that collide with a discriminator key *)

Lemma dict_mem_defaultdict_append {V : Type} (k k' : string) (v : V)
  (d : list (string * list V)) :
  dict_mem k (defaultdict_append k' v d)
    = (dict_mem k d || String.eqb k' k)%bool.
Proof.
  unfold dict_mem. induction d as [| [k0 g0] d IH]; cbn.
  - now rewrite orb_false_r.
  - destruct (String.eqb k0 k') eqn:E0; cbn.
    + apply String.eqb_eq in E0. subst k0.
      destruct (String.eqb k' k); cbn; [reflexivity | now rewrite orb_false_r].
    + rewrite IH. now rewrite orb_assoc.
Qed.

Lemma fold_identify_keeps_key (k : string)
  (fields : list (string * ModelField)) :
  forall st,
    dict_mem k (fst st) = true ->
    dict_mem k (fst (fold_left identify_when fields st)) = true.
Proof.
  induction fields as [| [n f] fields IH]; intros st Hst; cbn [fold_left];
    [exact Hst |].
  apply IH. destruct st as [ch cs]. unfold identify_when.
  destruct (when (field_info f)) as [w |]; [| exact Hst].
  destruct (truthy (Some w)); [| exact Hst].
  cbn [fst] in *. rewrite dict_mem_defaultdict_append, Hst. reflexivity.
Qed.

Lemma fold_identify_key (k : string) (fields : list (string * ModelField))
  (nf : string * ModelField) :
  In nf fields ->
  when (field_info (snd nf)) = Some k -> truthy (Some k) = true ->
  forall st, dict_mem k (fst (fold_left identify_when fields st)) = true.
Proof.
  intros Hin Hw Ht.
  induction fields as [| [n f] fields IH]; [easy |]. intros st.
  cbn [fold_left]. destruct Hin as [<- | Hin]; [| now apply IH].
  apply fold_identify_keeps_key. destruct st as [ch cs]. cbn [snd] in Hw.
  rewrite (identify_when_has_when ch cs n k f Hw Ht). cbn [fst].
  rewrite dict_mem_defaultdict_append, String.eqb_refl. apply orb_true_r.
Qed.

Lemma when_groups_skip (pre post : list (string * ModelField)) (k : string)
  (f : ModelField) :
  has_when f = false ->
  when_groups (pre ++ (k, f) :: post) = when_groups (pre ++ post).
Proof.
  intros Hf. unfold when_groups. rewrite !fold_left_app. cbn [fold_left].
  now rewrite identify_when_no_when.
Qed.

(** C10: a field without a discriminator key whose name is the discriminator
    key of another field leaves no trace in the output: the builder behaves
    as on the model without that field, so it is neither built in the direct
    pass nor put in any choice group. *)
Theorem field_named_like_key_is_dropped (fuel : nat) (cls : string)
  (pre post : list (string * ModelField)) (k : string) (f : ModelField)
  (element : option Element) :
  has_when f = false ->
  (exists nf, In nf (pre ++ post)
              /\ when (field_info (snd nf)) = Some k
              /\ truthy (Some k) = true) ->
  create_xml_element_for_base_model fuel
    (TModel cls (pre ++ (k, f) :: post)) element
  = create_xml_element_for_base_model fuel (TModel cls (pre ++ post)) element
  /\ direct_fields (pre ++ (k, f) :: post) = direct_fields (pre ++ post)
  /\ (forall key group,
        In (key, group) (fst (when_groups (pre ++ (k, f) :: post))) ->
        ~ In (k, f) group).
Proof.
  intros Hf (nf & Hin & Hw & Ht).
  assert (Hg := when_groups_skip pre post k f Hf).
  assert (Hd : direct_fields (pre ++ (k, f) :: post)
               = direct_fields (pre ++ post)).
  { unfold direct_fields. rewrite Hg, !filter_app. f_equal.
    cbn [filter fst].
    unfold when_groups at 1.
    now rewrite (fold_identify_key k (pre ++ post) nf Hin Hw Ht). }
  split; [| split; [exact Hd |]].
  - destruct fuel as [| fuel]; [reflexivity |].
    now rewrite !base_model_unfold, Hd, Hg.
  - intros key group Hgroup Hmem.
    assert (H : has_when (snd (k, f)) = true); [| cbn in H; congruence].
    apply (when_groups_entries (fun nf => has_when (snd nf) = true)
             (pre ++ (k, f) :: post) ([], []))
      with (k := key) (g := group); auto.
Qed.

Lemma field_named_like_key_is_dropped_witness :
  create_xml_element_for_base_model 2 Tagged None
  = Some (Ok (mkElement "object" []
                [mkElement "choice"
                   [("name", "shape"); ("on-fail-choice", "exception")]
                   [mkElement "case" [("name", "x")]
                      [mkElement "string" [("name", "x")] []]]])).
Proof.
  refine (eq_trans
            (proj1 (field_named_like_key_is_dropped 2 "Tagged" []
                      [("x", mkModelField (TClass CStr) shape_info)]
                      "shape" (mkModelField (TClass (COther "bytes")) no_info)
                      None eq_refl
                      (ex_intro _
                         ("x", mkModelField (TClass CStr) shape_info)
                         (conj (or_introl eq_refl)
                               (conj eq_refl eq_refl))))) _).
  reflexivity.
Defined.

(** *** Discriminated unions *)

(** Whatever the field builder returns has the classifier's tag and the
    attributes of the element it started from. *)
Lemma field_result_head (fuel : nat) (field : FieldArg)
  (name : option string) (e : Element) :
  create_xml_element_for_field fuel field name = Some (Ok e) ->
  exists ft,
    type_annotation_to_string field = Ok ft
    /\ tag e = ft
    /\ attrib e = attrib (field_element_head field name ft).
Proof.
  destruct fuel as [| fuel]; [discriminate |].
  rewrite field_unfold.
  destruct (type_annotation_to_string field) as [ft | ex];
    cbn [lift fbind]; [| discriminate].
  cbv zeta.
  destruct (field_element_head_tag_children field name ft) as [Ht _].
  intros H. exists ft. split; [reflexivity |].
  destruct (String.eqb ft "list" || String.eqb ft "object")%bool.
  2:{ injection H as <-. auto. }
  destruct (prepare_type_annotation field) as [t | ex];
    cbn [fbind] in H; [| discriminate].
  destruct (is_list (AType t)) as [[|] | ex]; cbn [fbind] in H;
    [| | discriminate].
  - destruct (get_args t) as [| inner rest]; [discriminate |].
    destruct (is_pydantic_base_model inner).
    + destruct (create_xml_element_for_base_model fuel inner None)
        as [[o | ex] |]; cbn [fbind] in H; try discriminate.
      injection H as <-. auto.
    + destruct (create_xml_element_for_field fuel (AType inner) None)
        as [[o | ex] |]; cbn [fbind] in H; try discriminate.
      injection H as <-. auto.
  - destruct (is_dict (AType t)) as [[|] | ex]; cbn [fbind] in H;
      try discriminate.
    destruct (is_pydantic_base_model t).
    + destruct (base_model_frame _ _ _ _ H) as (Ht' & Ha & _).
      split; congruence.
    + destruct (get_args t) as [| k [| v [| x rest]]];
        try (injection H as <-; now auto).
      destruct (is_class CStr k); [| discriminate].
      destruct (create_xml_element_for_field fuel (AType v) None)
        as [[o | ex] |]; cbn [fbind] in H; try discriminate.
      injection H as <-. auto.
Qed.

(** A field built under a non-empty name carries it as its [name]. *)
Lemma field_result_name (fuel : nat) (field : FieldArg) (n : string)
  (e : Element) :
  truthy (Some n) = true ->
  create_xml_element_for_field fuel field (Some n) = Some (Ok e) ->
  dict_get "name" (attrib e) = Some n.
Proof.
  intros Hn He. destruct (field_result_head _ _ _ _ He) as (ft & _ & _ & ->).
  now apply field_element_head_name.
Qed.

(** A field built without a name has no [name] attribute. *)
Lemma dict_get_set_None {V : Type} (k k' : string) (v : V)
  (d : list (string * V)) :
  String.eqb k' k = false -> dict_get k d = None ->
  dict_get k (dict_set k' v d) = None.
Proof. intros Hne Hd. now rewrite dict_get_set_other. Qed.

Lemma field_result_unnamed (fuel : nat) (field : FieldArg) (e : Element) :
  create_xml_element_for_field fuel field None = Some (Ok e) ->
  dict_get "name" (attrib e) = None.
Proof.
  intros He. destruct (field_result_head _ _ _ _ He) as (ft & _ & _ & ->).
  unfold field_element_head.
  assert (H1 : dict_get "name"
                 (attrib (add_validators_to_xml_element field (E ft))) = None).
  { unfold add_validators_to_xml_element.
    destruct field as [f | t]; [| reflexivity].
    destruct (gd_validators (field_info f)) as [vs |]; [| reflexivity].
    destruct (fold_left collect_validator vs ([], [])) as [fp ofs].
    destruct (Nat.ltb 0 (List.length fp)); [| reflexivity].
    assert (H : dict_get "name"
                  (attrib (Element_set (E ft) "format" (join "; " fp))) = None)
      by reflexivity.
    revert H. generalize (Element_set (E ft) "format" (join "; " fp)).
    induction ofs as [| kv rest IH]; intros e0 He0; cbn [fold_left];
      [exact He0 |].
    apply IH. cbn [attrib Element_set].
    apply dict_get_set_None; [apply on_fail_key_not_name | exact He0]. }
  destruct field as [f | t]; [| exact H1].
  destruct (description (field_info f)) as [d |]; [| exact H1].
  cbn [attrib Element_set]. now apply dict_get_set_None.
Qed.

(** Two fields [n1], [n2], declared in this order, that share the key
    "shape", all other fields carrying no key. *)
Lemma two_fields_one_key (fuel : nat) (cls n1 n2 : string)
  (pre mid post : list (string * ModelField)) (f1 f2 : ModelField) :
  Forall (fun nf => has_when (snd nf) = false) (pre ++ mid ++ post) ->
  when (field_info f1) = Some "shape" ->
  when (field_info f2) = Some "shape" ->
  create_xml_element_for_base_model (S fuel)
    (TModel cls (pre ++ (n1, f1) :: mid ++ (n2, f2) :: post)) None =
    (direct <~ collect (named_field fuel)
                 (beside_shape n1 n2 (pre ++ mid ++ post)) ;;
     e1 <~ create_xml_element_for_field fuel (AField f1) (Some n1) ;;
     e2 <~ create_xml_element_for_field fuel (AField f2) (Some n2) ;;
     Some (Ok (mkElement "object" []
                 (direct ++
                  [mkElement "choice"
                     [("name", "shape"); ("on-fail-choice", "exception")]
                     [mkElement "case" [("name", n1)] [e1];
                      mkElement "case" [("name", n2)] [e2]]])%list))).
Proof.
  intros Hrest H1 H2.
  apply Forall_app in Hrest. destruct Hrest as [Hpre Hrest].
  apply Forall_app in Hrest. destruct Hrest as [Hmid Hpost].
  assert (Hg : when_groups (pre ++ (n1, f1) :: mid ++ (n2, f2) :: post)
               = ([("shape", [(n1, f1); (n2, f2)])], [n2; n1])).
  { unfold when_groups. rewrite fold_left_app.
    rewrite (fold_identify_no_when pre _ Hpre). cbn [fold_left].
    rewrite (identify_when_has_when [] [] n1 "shape" f1 H1 eq_refl).
    rewrite fold_left_app.
    rewrite (fold_identify_no_when mid _ Hmid). cbn [fold_left].
    rewrite (identify_when_has_when _ _ n2 "shape" f2 H2 eq_refl).
    rewrite (fold_identify_no_when post _ Hpost). reflexivity. }
  assert (Hext : forall l : list (string * ModelField),
    filter (fun nf =>
              negb (dict_mem (fst nf) [("shape", [(n1, f1); (n2, f2)])]
                    || set_mem (fst nf) [n2; n1])) l
    = beside_shape n1 n2 l).
  { intros l. apply filter_ext. intros [n f]. cbn [fst].
    unfold dict_mem, set_mem. cbn [existsb fst].
    rewrite (String.eqb_sym "shape" n), (String.eqb_sym n2 n),
      (String.eqb_sym n1 n).
    destruct (String.eqb n "shape"), (String.eqb n n1),
      (String.eqb n n2); reflexivity. }
  assert (Hd : direct_fields (pre ++ (n1, f1) :: mid ++ (n2, f2) :: post)
               = beside_shape n1 n2 (pre ++ mid ++ post)).
  { unfold direct_fields. rewrite Hg. cbn [fst snd]. rewrite Hext.
    unfold beside_shape. rewrite !filter_app. cbn [filter fst].
    rewrite !filter_app. cbn [filter fst].
    rewrite !String.eqb_refl, !orb_true_r. reflexivity. }
  rewrite base_model_unfold, Hd, Hg. cbv zeta. cbn [fst].
  apply fbind_ext. intros direct.
  cbn [collect]. unfold choice_of, case_of, named_field.
  cbn [fst snd collect].
  destruct (create_xml_element_for_field fuel (AField f1) (Some n1))
    as [[e1 | e] |]; cbn [fbind]; try reflexivity.
  destruct (create_xml_element_for_field fuel (AField f2) (Some n2))
    as [[e2 | e] |]; cbn [fbind]; reflexivity.
Qed.

(** C2 (amended): when [x] and [y] are the fields that carry a discriminator
    key, and the key of both is "shape", the object element gets the elements
    of the other fields followed by exactly one [choice] element with
    [name="shape"] and [on-fail-choice="exception"], whose children are the
    [case] elements named "x" and "y" in declaration order; the only child of
    each case is the field's element built WITH the field name, so it carries
    a [name] attribute as well; no other child is built from a field named
    "x" or "y". *)
Theorem discriminated_union_choice (fuel : nat) (cls : string)
  (pre mid post : list (string * ModelField)) (fx fy : ModelField) :
  Forall (fun nf => has_when (snd nf) = false) (pre ++ mid ++ post) ->
  when (field_info fx) = Some "shape" ->
  when (field_info fy) = Some "shape" ->
  create_xml_element_for_base_model (S fuel)
    (TModel cls (pre ++ ("x", fx) :: mid ++ ("y", fy) :: post)) None =
    (direct <~ collect (named_field fuel)
                 (beside_shape "x" "y" (pre ++ mid ++ post)) ;;
     ex <~ create_xml_element_for_field fuel (AField fx) (Some "x") ;;
     ey <~ create_xml_element_for_field fuel (AField fy) (Some "y") ;;
     Some (Ok (mkElement "object" []
                 (direct ++
                  [mkElement "choice"
                     [("name", "shape"); ("on-fail-choice", "exception")]
                     [mkElement "case" [("name", "x")] [ex];
                      mkElement "case" [("name", "y")] [ey]]])%list)))
  /\ create_xml_element_for_base_model (S fuel)
       (TModel cls (pre ++ ("y", fy) :: mid ++ ("x", fx) :: post)) None =
       (direct <~ collect (named_field fuel)
                    (beside_shape "y" "x" (pre ++ mid ++ post)) ;;
        ey <~ create_xml_element_for_field fuel (AField fy) (Some "y") ;;
        ex <~ create_xml_element_for_field fuel (AField fx) (Some "x") ;;
        Some (Ok (mkElement "object" []
                    (direct ++
                     [mkElement "choice"
                        [("name", "shape"); ("on-fail-choice", "exception")]
                        [mkElement "case" [("name", "y")] [ey];
                         mkElement "case" [("name", "x")] [ex]]])%list)))
  /\ (forall ex,
        create_xml_element_for_field fuel (AField fx) (Some "x")
          = Some (Ok ex) ->
        dict_get "name" (attrib ex) = Some "x")
  /\ (forall ey,
        create_xml_element_for_field fuel (AField fy) (Some "y")
          = Some (Ok ey) ->
        dict_get "name" (attrib ey) = Some "y")
  /\ (forall nf,
        In nf (beside_shape "x" "y" (pre ++ mid ++ post))
        \/ In nf (beside_shape "y" "x" (pre ++ mid ++ post)) ->
        fst nf <> "x" /\ fst nf <> "y").
Proof.
  intros Hrest Hx Hy.
  split; [now apply two_fields_one_key |].
  split; [now apply two_fields_one_key |].
  split; [intros ex; now apply field_result_name |].
  split; [intros ey; now apply field_result_name |].
  intros [n f] [Hin | Hin]; unfold beside_shape in Hin;
    apply filter_In in Hin; destruct Hin as [_ Hin]; cbn [fst] in *;
    apply negb_true_iff in Hin;
    apply orb_false_iff in Hin; destruct Hin as [Hin H2];
    apply orb_false_iff in Hin; destruct Hin as [_ H1];
    split; intros ->; discriminate.
Qed.

Lemma discriminated_union_choice_witness :
  create_xml_element_for_base_model 4 Drawing None
  = Some (Ok (mkElement "object" []
                [mkElement "string" [("name", "title")] [];
                 mkElement "choice"
                   [("name", "shape"); ("on-fail-choice", "exception")]
                   [mkElement "case" [("name", "x")]
                      [mkElement "string" [("name", "x")] []];
                    mkElement "case" [("name", "y")]
                      [mkElement "object" [("name", "y")]
                         [mkElement "float" [("name", "radius")] []]]]])).
Proof.
  refine (eq_trans
            (proj1 (discriminated_union_choice 3 "Drawing"
                      [("title", mkModelField (Optional (TClass CStr)) no_info)]
                      [] []
                      (mkModelField (TClass CStr) shape_info)
                      (mkModelField Circle shape_info)
                      _ eq_refl eq_refl)) _).
  - repeat constructor.
  - reflexivity.
Defined.

(** C2 as stated fails on [Drawing]: the only child of the case for [x] is
    not the element of [x] built without a name; it has [name="x"]. *)
Lemma case_child_is_built_with_name :
  exists child unnamed case_y,
    create_xml_element_for_base_model 4 Drawing None
    = Some (Ok (mkElement "object" []
                  [mkElement "string" [("name", "title")] [];
                   mkElement "choice"
                     [("name", "shape"); ("on-fail-choice", "exception")]
                     [mkElement "case" [("name", "x")] [child]; case_y]]))
    /\ create_xml_element_for_field 3
         (AField (mkModelField (TClass CStr) shape_info)) None
       = Some (Ok unnamed)
    /\ child <> unnamed
    /\ dict_get "name" (attrib child) = Some "x"
    /\ dict_get "name" (attrib unnamed) = None.
Proof.
  exists (mkElement "string" [("name", "x")] []),
         (mkElement "string" [] []),
         (mkElement "case" [("name", "y")]
            [mkElement "object" [("name", "y")]
               [mkElement "float" [("name", "radius")] []]]).
  repeat split; try reflexivity. discriminate.
Qed.

End TreeBuilder.

(** * Further properties *)

(** ** The predicates and the classifier *)

Section Predicates.

(** X1: no annotation is both a list and a dict: where [is_list] answers
    [True], [is_dict] answers [False]; a model class is a dict and not a list;
    and both raise what the normalizer raises. *)
Theorem list_and_dict_exclusive (a : FieldArg) :
  (is_list a = Ok true -> is_dict a = Ok false)
  /\ (forall cls fs,
        prepare_type_annotation a = Ok (TModel cls fs) ->
        is_list a = Ok false /\ is_dict a = Ok true)
  /\ (forall e,
        prepare_type_annotation a = Raise e ->
        is_list a = Raise e /\ is_dict a = Raise e).
Proof.
  unfold is_list, is_dict. split; [| split].
  - destruct (prepare_type_annotation a) as [t | e]; cbn [bind];
      [| discriminate].
    destruct t as [[] | [] args | cls fs]; cbn; congruence.
  - intros cls fs ->. split; reflexivity.
  - intros e ->. split; reflexivity.
Qed.

Lemma predicates_after_prepare (a : FieldArg) (t : ty) :
  prepare_type_annotation a = Ok t ->
  origin_is OUnion t = false ->
  is_list a = is_list (AType t) /\ is_dict a = is_dict (AType t).
Proof.
  intros Hprep Hu. unfold is_list, is_dict.
  rewrite Hprep, (prepare_not_union (AType t) Hu). split; reflexivity.
Qed.

(** X2: on a representable annotation every tag the classifier returns is
    one of its nine, it is "list" exactly when [is_list] holds and "object"
    exactly when [is_dict] holds. *)
Theorem classifier_agrees_with_predicates (a : FieldArg) (tg : string) :
  representable a = true ->
  type_annotation_to_string a = Ok tg ->
  In tg ["list"; "object"; "bool"; "date"; "float"; "integer"; "string";
         "time"; "url"]
  /\ (tg = "list" <-> is_list a = Ok true)
  /\ (tg = "object" <-> is_dict a = Ok true).
Proof.
  intros Hrep Hcls.
  destruct (prepare_type_annotation a) as [t | e] eqn:Hprep.
  2:{ unfold type_annotation_to_string in Hcls. now rewrite Hprep in Hcls. }
  assert (Hu := prepare_result_not_union a t Hrep Hprep).
  destruct (predicates_after_prepare a t Hprep Hu) as [-> ->].
  rewrite (classify_not_union a t Hprep Hu) in Hcls.
  rewrite (is_list_not_union t Hu), (is_dict_not_union t Hu).
  destruct t as [[] | [] args | cls fs]; try discriminate Hcls;
    injection Hcls as <-; cbn;
    (split; [tauto | split; split; congruence]).
Qed.

Lemma classifier_agrees_with_predicates_witness :
  In "object" ["list"; "object"; "bool"; "date"; "float"; "integer";
               "string"; "time"; "url"]
  /\ ("object" = "list" <-> is_list (AType (Optional Circle)) = Ok true)
  /\ ("object" = "object" <-> is_dict (AType (Optional Circle)) = Ok true).
Proof.
  apply (classifier_agrees_with_predicates (AType (Optional Circle)) "object");
    reflexivity.
Defined.

Lemma same_info_head (a b : FieldArg) (name : option string) (ft : string) :
  same_info a b ->
  field_element_head a name ft = field_element_head b name ft.
Proof.
  destruct a as [f | t], b as [g | u]; cbn [same_info]; try contradiction.
  - intros H. unfold field_element_head, add_validators_to_xml_element.
    now rewrite H.
  - reflexivity.
Qed.

(** The builder sees its argument through the normalizer and the field
    metadata only. *)
Lemma builder_ext (fuel : nat) (a b : FieldArg) (name : option string) :
  same_info a b ->
  prepare_type_annotation a = prepare_type_annotation b ->
  create_xml_element_for_field fuel a name
  = create_xml_element_for_field fuel b name.
Proof.
  intros Hinfo Hprep. destruct fuel as [| fuel]; [reflexivity |].
  rewrite !field_unfold.
  assert (Hcls : type_annotation_to_string a = type_annotation_to_string b).
  { unfold type_annotation_to_string. now rewrite Hprep. }
  rewrite Hcls, Hprep. apply fbind_ext. intros ft.
  now rewrite (same_info_head a b name ft Hinfo).
Qed.

(** Any alias whose origin is not [typing.Union], [list] or [dict] is
    unsupported, a PEP 604 union among them. *)
Lemma other_origin_unsupported (q : string) (args : list ty) :
  type_annotation_to_string (AType (TGeneric (OOther q) args))
  = Raise (UnsupportedType (TGeneric (OOther q) args)).
Proof. reflexivity. Qed.

(** X3: an optional built by [typing] (a union of origin [typing.Union]
    whose only member besides [NoneType] is [t], in any position) is
    transparent: the classifier and the builder give on it what they give on
    [t], for a bare type and for a field with the same metadata.  This rests
    on the test [get_origin(...) == Union]: an optional of origin
    [types.UnionType] ([t | None]) is not unwrapped, and the classifier and
    the builder raise "Unsupported type" on it. *)
Theorem optional_is_transparent (args : list ty) (t : ty) :
  non_None_members args = [t] ->
  origin_is OUnion t = false ->
  type_annotation_to_string (AType (TGeneric OUnion args))
    = type_annotation_to_string (AType t)
  /\ (forall fuel name,
        create_xml_element_for_field fuel (AType (TGeneric OUnion args)) name
        = create_xml_element_for_field fuel (AType t) name)
  /\ (forall fuel name info,
        create_xml_element_for_field fuel
          (AField (mkModelField (TGeneric OUnion args) info)) name
        = create_xml_element_for_field fuel
            (AField (mkModelField t info)) name)
  /\ type_annotation_to_string (AType (TGeneric UnionType args))
     = Raise (UnsupportedType (TGeneric UnionType args))
  /\ (forall fuel name,
        create_xml_element_for_field (S fuel)
          (AType (TGeneric UnionType args)) name
        = Some (Raise (UnsupportedType (TGeneric UnionType args)))).
Proof.
  intros Hm Hu.
  assert (H1 : prepare_type_annotation (AType (TGeneric OUnion args))
               = prepare_type_annotation (AType t)).
  { rewrite (prepare_union (AType (TGeneric OUnion args)) args eq_refl), Hm.
    now rewrite (prepare_not_union (AType t) Hu). }
  split; [| split; [| split; [| split]]].
  - unfold type_annotation_to_string. now rewrite H1.
  - intros fuel name. now apply builder_ext.
  - intros fuel name info. apply builder_ext; [reflexivity |].
    rewrite (prepare_union
               (AField (mkModelField (TGeneric OUnion args) info)) args
               eq_refl), Hm.
    now rewrite (prepare_not_union (AField (mkModelField t info)) Hu).
  - apply other_origin_unsupported.
  - intros fuel name. rewrite field_unfold.
    unfold UnionType. now rewrite other_origin_unsupported.
Qed.

Lemma optional_is_transparent_witness :
  create_xml_element_for_field 3
    (AType (TGeneric OUnion [TClass CNoneType; Circle])) (Some "c")
  = create_xml_element_for_field 3 (AType Circle) (Some "c")
  /\ create_xml_element_for_field 3
       (AType (TGeneric UnionType [TClass CNoneType; Circle])) (Some "c")
     = Some (Raise (UnsupportedType
                      (TGeneric UnionType [TClass CNoneType; Circle]))).
Proof.
  split.
  - apply (proj1 (proj2 (optional_is_transparent
                    [TClass CNoneType; Circle] Circle eq_refl eq_refl))).
  - apply (proj2 (proj2 (proj2 (proj2 (optional_is_transparent
                    [TClass CNoneType; Circle] Circle eq_refl eq_refl))))).
Defined.

End Predicates.

(** ** Insertion-ordered dicts *)

Section Dicts.

Context {V : Type}.

Lemma dict_get_set_same (k : string) (v : V) (d : list (string * V)) :
  dict_get k (dict_set k v d) = Some v.
Proof.
  induction d as [| [k0 v0] d IH]; cbn.
  - now rewrite String.eqb_refl.
  - destruct (String.eqb k0 k) eqn:E0; cbn.
    + now rewrite String.eqb_refl.
    + now rewrite E0.
Qed.

Lemma dict_get_None (k : string) (d : list (string * V)) :
  dict_get k d = None <-> ~ In k (map fst d).
Proof.
  induction d as [| [k0 v0] d IH]; cbn; [tauto |].
  destruct (String.eqb k0 k) eqn:E0.
  - apply String.eqb_eq in E0. split; [discriminate | intros H; tauto].
  - apply String.eqb_neq in E0. rewrite IH. tauto.
Qed.

Lemma dict_mem_get (k : string) (d : list (string * V)) :
  dict_mem k d = false <-> dict_get k d = None.
Proof.
  unfold dict_mem. induction d as [| [k0 v0] d IH]; cbn; [tauto |].
  destruct (String.eqb k0 k); cbn; [split; discriminate | exact IH].
Qed.

Lemma dict_set_fresh (k : string) (v : V) (d : list (string * V)) :
  dict_get k d = None -> dict_set k v d = (d ++ [(k, v)])%list.
Proof.
  induction d as [| [k0 v0] d IH]; cbn; [reflexivity |].
  destruct (String.eqb k0 k); [discriminate |].
  intros H. now rewrite IH.
Qed.

Lemma dict_set_keys (k : string) (v : V) (d : list (string * V)) :
  map fst (dict_set k v d)
  = if dict_mem k d then map fst d else (map fst d ++ [k])%list.
Proof.
  unfold dict_mem. induction d as [| [k0 v0] d IH]; cbn; [reflexivity |].
  destruct (String.eqb k0 k) eqn:E0; cbn.
  - apply String.eqb_eq in E0. now subst.
  - rewrite IH. now destruct (existsb _ d).
Qed.

Lemma dict_get_app_None (k : string) (d d' : list (string * V)) :
  dict_get k d = None -> dict_get k (d ++ d') = dict_get k d'.
Proof.
  induction d as [| [k0 v0] d IH]; cbn; [reflexivity |].
  destruct (String.eqb k0 k); [discriminate | exact IH].
Qed.

(** Writing entries whose keys are distinct and new appends them in order. *)
Lemma dict_sets_append (kvs : list (string * V)) :
  NoDup (map fst kvs) ->
  forall d,
    (forall k, In k (map fst kvs) -> dict_get k d = None) ->
    fold_left (fun d kv => dict_set (fst kv) (snd kv) d) kvs d
    = (d ++ kvs)%list.
Proof.
  induction kvs as [| [k v] kvs IH]; intros Hnd d Hnew; cbn [fold_left].
  - now rewrite app_nil_r.
  - cbn in Hnd. inversion Hnd as [| ? ? Hk Hnd']; subst.
    cbn [fst snd]. rewrite dict_set_fresh by (apply Hnew; now left).
    rewrite IH; [now rewrite <- app_assoc | exact Hnd' |].
    intros k' Hk'. rewrite dict_get_app_None by (apply Hnew; now right).
    cbn. destruct (String.eqb k k') eqn:E; [| reflexivity].
    apply String.eqb_eq in E. now subst.
Qed.

(** Reading a key after a run of writes with distinct keys. *)
Lemma dict_get_sets (kvs : list (string * V)) (k : string) :
  NoDup (map fst kvs) ->
  forall d,
    dict_get k (fold_left (fun d kv => dict_set (fst kv) (snd kv) d) kvs d)
    = match dict_get k kvs with
      | Some v => Some v
      | None => dict_get k d
      end.
Proof.
  induction kvs as [| [k0 v0] kvs IH]; intros Hnd d; cbn [fold_left];
    [reflexivity |].
  cbn in Hnd. inversion Hnd as [| ? ? Hk Hnd']; subst.
  rewrite (IH Hnd'). cbn [fst snd dict_get].
  destruct (String.eqb k0 k) eqn:E0.
  - apply String.eqb_eq in E0. subst k0.
    apply dict_get_None in Hk. rewrite Hk. apply dict_get_set_same.
  - now rewrite dict_get_set_other.
Qed.

End Dicts.

Lemma first_seen_In (ks : list string) (k : string) :
  In k (first_seen ks) <-> In k ks.
Proof.
  induction ks as [| k0 ks IH]; cbn; [tauto |].
  rewrite filter_In, IH, negb_true_iff, String.eqb_neq.
  destruct (String.eqb_spec k0 k) as [-> | Hne]; [tauto |].
  split; [tauto |]. intros [H | H]; [tauto |]. right.
  split; [exact H | intros E; apply Hne; now symmetry].
Qed.

Lemma first_seen_NoDup (ks : list string) : NoDup (first_seen ks).
Proof.
  induction ks as [| k0 ks IH]; cbn; constructor.
  - rewrite filter_In, String.eqb_refl. cbn. intros [_ H]. discriminate.
  - now apply NoDup_filter.
Qed.

Lemma filter_first_seen_snoc (ks : list string) (k a : string) :
  filter (fun k' => negb (String.eqb k' a)) (ks ++ [k])
  = (filter (fun k' => negb (String.eqb k' a)) ks
     ++ if String.eqb k a then [] else [k])%list.
Proof.
  rewrite filter_app. cbn. now destruct (String.eqb k a).
Qed.

(** A new string goes to the end, a known one changes nothing. *)
Lemma first_seen_snoc (ks : list string) (k : string) :
  first_seen (ks ++ [k])
  = if set_mem k ks then first_seen ks else (first_seen ks ++ [k])%list.
Proof.
  unfold set_mem. induction ks as [| a ks IH]; cbn; [reflexivity |].
  rewrite IH. destruct (String.eqb a k) eqn:Ea; cbn.
  - apply String.eqb_eq in Ea. subst a.
    destruct (existsb (fun k' => String.eqb k' k) ks); [reflexivity |].
    rewrite filter_app. cbn. rewrite String.eqb_refl. cbn.
    now rewrite app_nil_r.
  - destruct (existsb (fun k' => String.eqb k' k) ks); [reflexivity |].
    rewrite filter_app. cbn. rewrite String.eqb_sym, Ea. reflexivity.
Qed.

Lemma set_mem_In (k : string) (ks : list string) :
  set_mem k ks = true <-> In k ks.
Proof.
  unfold set_mem. rewrite existsb_exists. split.
  - intros (x & Hin & E). apply String.eqb_eq in E. now subst.
  - intros H. exists k. split; [exact H | apply String.eqb_refl].
Qed.

Lemma set_mem_first_seen (k : string) (ks : list string) :
  set_mem k (first_seen ks) = set_mem k ks.
Proof.
  destruct (set_mem k ks) eqn:E.
  - apply set_mem_In. apply first_seen_In. now apply set_mem_In.
  - destruct (set_mem k (first_seen ks)) eqn:E'; [| reflexivity].
    apply (proj1 (set_mem_In _ _)) in E'.
    apply (proj1 (first_seen_In _ _)) in E'.
    apply (proj2 (set_mem_In _ _)) in E'. congruence.
Qed.

(** ** More on the validator encoder *)

Section EncoderAttributes.

Lemma eqb_append_prefix (p a b : string) :
  String.eqb (p ++ a) (p ++ b) = String.eqb a b.
Proof.
  induction p as [| c p IH]; cbn; [reflexivity |].
  now rewrite Ascii.eqb_refl.
Qed.

Lemma prefix_append (p a : string) : String.prefix p (p ++ a) = true.
Proof.
  induction p as [| c p IH]; cbn; [now destruct a |].
  destruct (Ascii.ascii_dec c c); [exact IH | contradiction].
Qed.

Lemma NoDup_snoc {X : Type} (l : list X) (x : X) :
  NoDup l -> ~ In x l -> NoDup (l ++ [x]).
Proof.
  intros Hl Hx. apply NoDup_app. repeat split.
  - exact Hl.
  - repeat constructor. intros [].
  - intros a Ha [<- | []]. contradiction.
Qed.

Lemma dict_mem_keys {V : Type} (k : string) (d : list (string * V)) :
  dict_mem k d = set_mem k (map fst d).
Proof.
  unfold dict_mem, set_mem. induction d as [| kv d IH]; cbn; congruence.
Qed.

Lemma dict_set_NoDup {V : Type} (k : string) (v : V) (d : list (string * V)) :
  NoDup (map fst d) -> NoDup (map fst (dict_set k v d)).
Proof.
  intros H. rewrite dict_set_keys. destruct (dict_mem k d) eqn:E; [exact H |].
  apply NoDup_snoc; [exact H |].
  rewrite dict_mem_keys in E. intros Hin.
  apply set_mem_In in Hin. congruence.
Qed.

Lemma fold_collect_validator (vs : list Validator) :
  forall fp ofs,
    fold_left collect_validator vs (fp, ofs)
    = ((fp ++ map validator_prompt vs)%list, fold_left record_on_fail vs ofs).
Proof.
  induction vs as [| v vs IH]; intros fp ofs; cbn [fold_left map].
  - now rewrite app_nil_r.
  - destruct v as [text | text alias on_fail]; cbn [collect_validator];
      rewrite IH, <- app_assoc; reflexivity.
Qed.

Lemma on_fails_NoDup (vs : list Validator) :
  forall d, NoDup (map fst d) ->
            NoDup (map fst (fold_left record_on_fail vs d)).
Proof.
  induction vs as [| v vs IH]; intros d Hd; cbn [fold_left]; [exact Hd |].
  apply IH. destruct v; cbn [record_on_fail];
    [exact Hd | now apply dict_set_NoDup].
Qed.

Lemma on_fail_entries_NoDup (ofs : list (string * string)) :
  NoDup (map fst ofs) -> NoDup (map fst (on_fail_entries ofs)).
Proof.
  induction ofs as [| [k v] ofs IH]; cbn; intros H; [constructor |].
  inversion H as [| ? ? Hk Hnd]; subst. constructor; [| now apply IH].
  intros Hin. apply Hk. unfold on_fail_entries in Hin.
  rewrite map_map in Hin. cbn [fst] in Hin.
  apply in_map_iff in Hin. destruct Hin as ([k' v'] & E & Hin').
  cbn [fst] in E.
  assert (Ek : String.eqb ("on-fail-" ++ k') ("on-fail-" ++ k) = true)
    by (apply String.eqb_eq; exact E).
  rewrite eqb_append_prefix in Ek. apply String.eqb_eq in Ek. subst k'.
  apply in_map_iff. now exists (k, v').
Qed.

Lemma on_fail_entries_get (ofs : list (string * string)) (alias : string) :
  dict_get ("on-fail-" ++ alias) (on_fail_entries ofs) = dict_get alias ofs.
Proof.
  induction ofs as [| [k v] ofs IH]; [reflexivity |].
  cbn [on_fail_entries map dict_get fst snd].
  rewrite eqb_append_prefix.
  destruct (String.eqb k alias); [reflexivity | exact IH].
Qed.

Lemma on_fail_entries_other (ofs : list (string * string)) (k : string) :
  String.prefix "on-fail-" k = false ->
  dict_get k (on_fail_entries ofs) = None.
Proof.
  intros Hk. apply dict_get_None. intros Hin.
  unfold on_fail_entries in Hin. rewrite map_map in Hin.
  apply in_map_iff in Hin. destruct Hin as ([a v] & E & _). cbn [fst] in E.
  rewrite <- E, prefix_append in Hk. discriminate.
Qed.

Lemma attrib_on_fail_sets (ofs : list (string * string)) :
  forall e,
    attrib (fold_left
              (fun element kv =>
                 Element_set element ("on-fail-" ++ fst kv) (snd kv))
              ofs e)
    = fold_left (fun d kv => dict_set (fst kv) (snd kv) d)
        (on_fail_entries ofs) (attrib e).
Proof.
  induction ofs as [| kv ofs IH]; intros e; cbn [fold_left on_fail_entries map];
    [reflexivity |].
  now rewrite IH.
Qed.

(** The encoder on a field with at least one validator, on attributes. *)
Lemma encoder_attrib (f : ModelField) (v : Validator) (vs : list Validator)
  (e : Element) :
  gd_validators (field_info f) = Some (v :: vs) ->
  attrib (add_validators_to_xml_element (AField f) e)
  = fold_left (fun d kv => dict_set (fst kv) (snd kv) d)
      (on_fail_entries (fold_left record_on_fail (v :: vs) []))
      (dict_set "format" (join "; " (map validator_prompt (v :: vs)))
         (attrib e)).
Proof.
  intros Hv. unfold add_validators_to_xml_element. rewrite Hv.
  rewrite fold_collect_validator. cbn [app].
  replace (Nat.ltb 0 (List.length (map validator_prompt (v :: vs))))
    with true by reflexivity.
  now rewrite attrib_on_fail_sets.
Qed.

Lemma encoder_on_fails_NoDup (vs : list Validator) :
  NoDup (map fst (on_fail_entries (fold_left record_on_fail vs []))).
Proof. apply on_fail_entries_NoDup, on_fails_NoDup. constructor. Qed.

Lemma encoder_without_validators (f : ModelField) (e : Element) :
  gd_validators (field_info f) = None
  \/ gd_validators (field_info f) = Some [] ->
  add_validators_to_xml_element (AField f) e = e.
Proof.
  unfold add_validators_to_xml_element. now intros [-> | ->].
Qed.

(** X4: [format] is the serialized texts of all validators, in order, joined
    by "; "; with no validator (none attached, or an empty list) the encoder
    returns the element as it is, so no [format] is written. *)
Theorem format_joins_all_validators (f : ModelField) (e : Element) :
  match gd_validators (field_info f) with
  | Some (v :: vs) =>
      dict_get "format" (attrib (add_validators_to_xml_element (AField f) e))
      = Some (join "; " (map validator_prompt (v :: vs)))
  | _ => add_validators_to_xml_element (AField f) e = e
  end.
Proof.
  destruct (gd_validators (field_info f)) as [[| v vs] |] eqn:Hv.
  - apply encoder_without_validators. now right.
  - rewrite (encoder_attrib f v vs e Hv).
    rewrite dict_get_sets by apply encoder_on_fails_NoDup.
    rewrite on_fail_entries_other by reflexivity.
    apply dict_get_set_same.
  - apply encoder_without_validators. now left.
Qed.

(** X5: validators given as raw text only contribute to [format]: the encoder
    writes that one attribute and no [on-fail-*]. *)
Theorem raw_text_validators_only_format (f : ModelField)
  (texts : list string) (e : Element) :
  gd_validators (field_info f) = Some (map VStr texts) ->
  texts <> [] ->
  add_validators_to_xml_element (AField f) e
  = Element_set e "format" (join "; " texts).
Proof.
  intros Hv Hne. unfold add_validators_to_xml_element. rewrite Hv.
  rewrite fold_collect_validator. cbn [app].
  assert (Hp : map validator_prompt (map VStr texts) = texts).
  { rewrite map_map. cbn. apply map_id. }
  assert (Ho : forall d, fold_left record_on_fail (map VStr texts) d = d).
  { clear. induction texts as [| t ts IH]; intros d; cbn; auto. }
  rewrite Hp, Ho. destruct texts; [contradiction | reflexivity].
Qed.

Lemma raw_text_validators_only_format_witness :
  add_validators_to_xml_element
    (AField (mkModelField (TClass CStr)
               (mkFieldInfo None (Some [VStr "lower-case"; VStr "one-line"])
                  None)))
    (E "string")
  = mkElement "string" [("format", "lower-case; one-line")] [].
Proof.
  apply (raw_text_validators_only_format
           (mkModelField (TClass CStr)
              (mkFieldInfo None (Some [VStr "lower-case"; VStr "one-line"])
                 None))
           ["lower-case"; "one-line"] (E "string") eq_refl).
  discriminate.
Defined.

Lemma on_fails_get (alias : string) (vs : list Validator) :
  forall d,
    dict_get alias (fold_left record_on_fail vs d)
    = match last_on_fail alias vs with
      | Some a => Some a
      | None => dict_get alias d
      end.
Proof.
  induction vs as [| v vs IH]; intros d; cbn [fold_left last_on_fail];
    [reflexivity |].
  rewrite IH. destruct (last_on_fail alias vs) as [a |]; [reflexivity |].
  destruct v as [text | text a on_fail]; cbn [record_on_fail]; [reflexivity |].
  destruct (String.eqb a alias) eqn:E.
  - apply String.eqb_eq in E. subst a. apply dict_get_set_same.
  - now apply dict_get_set_other.
Qed.

(** X6: the attribute [on-fail-<alias>] holds the action of the last
    validator object with that alias ("noop" when it names none); an alias no
    validator object has leaves the attribute as it was. *)
Theorem on_fail_of_last_validator (f : ModelField) (v : Validator)
  (vs : list Validator) (alias : string) (e : Element) :
  gd_validators (field_info f) = Some (v :: vs) ->
  dict_get ("on-fail-" ++ alias)
    (attrib (add_validators_to_xml_element (AField f) e))
  = match last_on_fail alias (v :: vs) with
    | Some action => Some action
    | None => dict_get ("on-fail-" ++ alias) (attrib e)
    end.
Proof.
  intros Hv. rewrite (encoder_attrib f v vs e Hv).
  rewrite dict_get_sets by apply encoder_on_fails_NoDup.
  rewrite on_fail_entries_get, on_fails_get. cbn [dict_get].
  destruct (last_on_fail alias (v :: vs)); [reflexivity |].
  now rewrite dict_get_set_other.
Qed.

Lemma on_fail_of_last_validator_witness :
  dict_get "on-fail-length"
    (attrib (add_validators_to_xml_element
               (AField (mkModelField (TClass CStr)
                          (mkFieldInfo None
                             (Some [VObj "length: 1 2" "length" (Some "reask");
                                    VStr "lower-case";
                                    VObj "length: 3 4" "length" None])
                             None)))
               (E "string")))
  = Some "noop".
Proof.
  apply (on_fail_of_last_validator
           (mkModelField (TClass CStr)
              (mkFieldInfo None
                 (Some [VObj "length: 1 2" "length" (Some "reask");
                        VStr "lower-case";
                        VObj "length: 3 4" "length" None])
                 None))
           (VObj "length: 1 2" "length" (Some "reask"))
           [VStr "lower-case"; VObj "length: 3 4" "length" None]
           "length" (E "string") eq_refl).
Defined.

Lemma encoder_other_key (field : FieldArg) (e : Element) (k : string) :
  String.eqb "format" k = false ->
  String.prefix "on-fail-" k = false ->
  dict_get k (attrib (add_validators_to_xml_element field e))
  = dict_get k (attrib e).
Proof.
  intros Hf Hp. destruct field as [f | t]; [| reflexivity].
  destruct (gd_validators (field_info f)) as [[| v vs] |] eqn:Hv;
    try (rewrite encoder_without_validators; [reflexivity | now auto]).
  rewrite (encoder_attrib f v vs e Hv).
  rewrite dict_get_sets by apply encoder_on_fails_NoDup.
  rewrite on_fail_entries_other by exact Hp.
  now apply dict_get_set_other.
Qed.

(** X7: the encoder writes [format] and [on-fail-*] attributes and nothing
    else: the tag, the children and every other attribute of the element are
    as before. *)
Theorem encoder_frame (field : FieldArg) (e : Element) (k : string) :
  String.eqb "format" k = false ->
  String.prefix "on-fail-" k = false ->
  tag (add_validators_to_xml_element field e) = tag e
  /\ children (add_validators_to_xml_element field e) = children e
  /\ dict_get k (attrib (add_validators_to_xml_element field e))
     = dict_get k (attrib e).
Proof.
  intros Hf Hp. destruct (add_validators_tag_children field e) as [Ht Hc].
  split; [exact Ht | split; [exact Hc |]].
  now apply encoder_other_key.
Qed.

Lemma encoder_frame_witness :
  dict_get "name"
    (attrib (add_validators_to_xml_element
               (AField (mkModelField (TClass CStr)
                          (mkFieldInfo None
                             (Some [VObj "length: 1 2" "length" None]) None)))
               (Element_set (E "string") "name" "code")))
  = Some "code".
Proof.
  apply (encoder_frame
           (AField (mkModelField (TClass CStr)
                      (mkFieldInfo None
                         (Some [VObj "length: 1 2" "length" None]) None)))
           (Element_set (E "string") "name" "code") "name" eq_refl eq_refl).
Defined.

Lemma on_fail_entries_keys (ofs : list (string * string)) (k : string) :
  In k (map fst (on_fail_entries ofs)) ->
  exists alias, k = "on-fail-" ++ alias.
Proof.
  unfold on_fail_entries. rewrite map_map. intros Hin.
  apply in_map_iff in Hin. destruct Hin as ([a v] & <- & _). now exists a.
Qed.

(** On an element that has no [format] and no [on-fail-*] attribute the
    encoder appends what it writes on an element without attributes. *)
Lemma encoder_appends (field : FieldArg) (e : Element) :
  dict_get "format" (attrib e) = None ->
  (forall alias, dict_get ("on-fail-" ++ alias) (attrib e) = None) ->
  attrib (add_validators_to_xml_element field e)
  = (attrib e ++ validator_attributes field)%list.
Proof.
  intros Hf Ho. unfold validator_attributes.
  destruct field as [f | t]; [| cbn; now rewrite app_nil_r].
  destruct (gd_validators (field_info f)) as [[| v vs] |] eqn:Hv;
    try (rewrite !encoder_without_validators by auto; cbn;
         now rewrite app_nil_r).
  rewrite !(encoder_attrib f v vs _ Hv). cbn [attrib E dict_set].
  rewrite (dict_set_fresh _ _ _ Hf).
  rewrite !dict_sets_append; try apply encoder_on_fails_NoDup.
  - now rewrite <- app_assoc.
  - intros k Hk. apply on_fail_entries_keys in Hk. destruct Hk as [a ->].
    reflexivity.
  - intros k Hk. apply on_fail_entries_keys in Hk. destruct Hk as [a ->].
    now rewrite dict_get_app_None by apply Ho.
Qed.

(** X8: the attributes a field starts from are, in this order, [name] (for a
    non-empty name), what the validator encoder writes, and [description];
    no part overwrites another. *)
Theorem field_attribute_layout (field : FieldArg) (name : option string)
  (ft : string) :
  attrib (field_element_head field name ft)
  = (name_attribute name ++ validator_attributes field
     ++ description_attribute field)%list.
Proof.
  unfold field_element_head.
  set (e0 := match name with
             | Some n => if truthy name then Element_set (E ft) "name" n
                         else E ft
             | None => E ft
             end).
  assert (H0 : attrib e0 = name_attribute name).
  { subst e0. unfold name_attribute.
    destruct name as [n |]; [destruct (truthy (Some n)) |]; reflexivity. }
  assert (Hf : dict_get "format" (attrib e0) = None).
  { rewrite H0. unfold name_attribute.
    destruct name as [n |]; [destruct (truthy (Some n)) |]; reflexivity. }
  assert (Ho : forall a, dict_get ("on-fail-" ++ a) (attrib e0) = None).
  { intros a. rewrite H0. unfold name_attribute.
    destruct name as [n |]; [destruct (truthy (Some n)) |]; reflexivity. }
  assert (Hd : dict_get "description" (attrib e0) = None).
  { rewrite H0. unfold name_attribute.
    destruct name as [n |]; [destruct (truthy (Some n)) |]; reflexivity. }
  pose proof (encoder_appends field e0 Hf Ho) as Happ. rewrite H0 in Happ.
  destruct field as [f | t]; cbn [description_attribute]; cbv iota;
    [| now rewrite Happ, !app_nil_r].
  destruct (description (field_info f)) as [d |];
    [| now rewrite Happ, !app_nil_r].
  cbn [attrib Element_set]. rewrite dict_set_fresh.
  - now rewrite Happ, <- app_assoc.
  - rewrite encoder_other_key by reflexivity. exact Hd.
Qed.

Lemma rail_aliases_snoc (vs : list Validator) (v : Validator) :
  rail_aliases (vs ++ [v])
  = (rail_aliases vs ++ match v with
                        | VObj _ alias _ => [alias]
                        | VStr _ => []
                        end)%list.
Proof.
  unfold rail_aliases. rewrite flat_map_app. cbn. now rewrite app_nil_r.
Qed.

(** The keys of [on_fails] are the aliases in order of first occurrence. *)
Lemma on_fails_keys (vs : list Validator) :
  map fst (fold_left record_on_fail vs []) = first_seen (rail_aliases vs).
Proof.
  induction vs as [| v vs IH] using rev_ind; [reflexivity |].
  rewrite fold_left_app, rail_aliases_snoc. cbn [fold_left].
  destruct v as [text | text alias on_fail]; cbn [record_on_fail].
  - now rewrite app_nil_r.
  - rewrite dict_set_keys, first_seen_snoc, dict_mem_keys, IH.
    now rewrite set_mem_first_seen.
Qed.

Lemma dict_as_map {V : Type} (dflt : V) (d : list (string * V)) :
  NoDup (map fst d) ->
  d = map (fun k => (k, match dict_get k d with
                        | Some v => v
                        | None => dflt
                        end)) (map fst d).
Proof.
  induction d as [| [k0 v0] d IH]; cbn [map fst]; intros Hnd;
    [reflexivity |].
  inversion Hnd as [| ? ? Hk Hnd']; subst.
  cbn [dict_get]. rewrite String.eqb_refl. f_equal.
  rewrite (IH Hnd') at 1. apply map_ext_in. intros k Hin.
  destruct (String.eqb k0 k) eqn:E; [| reflexivity].
  apply String.eqb_eq in E. now subst.
Qed.

(** X9: on a field with validators the encoder writes [format] first and
    then one [on-fail-<alias>] per distinct alias of a validator object, in
    order of first occurrence, each with the action of the last validator
    object of that alias. *)
Theorem encoder_attributes_in_order (f : ModelField) (v : Validator)
  (vs : list Validator) :
  gd_validators (field_info f) = Some (v :: vs) ->
  validator_attributes (AField f)
  = ("format", join "; " (map validator_prompt (v :: vs)))
    :: map (fun alias =>
              ("on-fail-" ++ alias,
               match last_on_fail alias (v :: vs) with
               | Some action => action
               | None => "noop"
               end))
         (first_seen (rail_aliases (v :: vs))).
Proof.
  intros Hv. unfold validator_attributes.
  rewrite (encoder_attrib f v vs _ Hv). cbn [attrib E dict_set].
  rewrite dict_sets_append; [| apply encoder_on_fails_NoDup |].
  2:{ intros k Hk. apply on_fail_entries_keys in Hk. destruct Hk as [a ->].
      reflexivity. }
  cbn [app]. f_equal.
  set (ofs := fold_left record_on_fail (v :: vs) []).
  assert (Hnd : NoDup (map fst ofs))
    by (apply on_fails_NoDup; constructor).
  rewrite (dict_as_map "noop" ofs Hnd) at 1.
  unfold on_fail_entries. rewrite map_map. cbn [fst snd].
  subst ofs. rewrite on_fails_keys. apply map_ext. intros a.
  rewrite on_fails_get.
  now destruct (last_on_fail a (v :: vs)).
Qed.

Lemma encoder_attributes_in_order_witness :
  validator_attributes
    (AField (mkModelField (TClass CStr)
               (mkFieldInfo None
                  (Some [VObj "length: 1 2" "length" (Some "reask");
                         VObj "two-words" "two-words" (Some "fix");
                         VObj "length: 3 4" "length" None])
                  None)))
  = [("format", "length: 1 2; two-words; length: 3 4");
     ("on-fail-length", "noop"); ("on-fail-two-words", "fix")].
Proof.
  apply (encoder_attributes_in_order
           (mkModelField (TClass CStr)
              (mkFieldInfo None
                 (Some [VObj "length: 1 2" "length" (Some "reask");
                        VObj "two-words" "two-words" (Some "fix");
                         VObj "length: 3 4" "length" None])
                 None))
           (VObj "length: 1 2" "length" (Some "reask"))
           [VObj "two-words" "two-words" (Some "fix");
            VObj "length: 3 4" "length" None] eq_refl).
Defined.

End EncoderAttributes.

(** ** More on the tree builder *)

Section BuilderShapes.

(** X10: whatever the field builder returns has the tag the classifier gives
    and exactly the attributes the field starts from; it carries the name it
    was given, and built without a name it has no [name] attribute. *)
Theorem builder_result_shape (fuel : nat) (field : FieldArg)
  (name : option string) (e : Element) :
  create_xml_element_for_field fuel field name = Some (Ok e) ->
  type_annotation_to_string field = Ok (tag e)
  /\ attrib e = attrib (field_element_head field name (tag e))
  /\ dict_get "name" (attrib e)
     = (if truthy name then name else None).
Proof.
  intros He. destruct (field_result_head _ _ _ _ He) as (ft & Hcls & Ht & Ha).
  subst ft. split; [exact Hcls | split; [exact Ha |]].
  destruct name as [n |].
  - destruct (truthy (Some n)) eqn:Hn.
    + now apply field_result_name with (fuel := fuel) (field := field).
    + destruct n; [| discriminate].
      apply (field_result_unnamed fuel field).
      rewrite <- He. destruct fuel as [| fuel]; [reflexivity |].
      rewrite !field_unfold. reflexivity.
  - now apply field_result_unnamed with (fuel := fuel) (field := field).
Qed.

Lemma builder_result_shape_witness :
  type_annotation_to_string
    (AField (mkModelField (Optional (TClass CDate))
               (mkFieldInfo (Some "day") None None)))
  = Ok (tag (mkElement "date" [("name", "d"); ("description", "day")] []))
  /\ attrib (mkElement "date" [("name", "d"); ("description", "day")] [])
     = attrib (field_element_head
                 (AField (mkModelField (Optional (TClass CDate))
                            (mkFieldInfo (Some "day") None None)))
                 (Some "d")
                 (tag (mkElement "date"
                         [("name", "d"); ("description", "day")] [])))
  /\ dict_get "name"
       (attrib (mkElement "date" [("name", "d"); ("description", "day")] []))
     = (if truthy (Some "d") then Some "d" else None).
Proof.
  apply (builder_result_shape 1
           (AField (mkModelField (Optional (TClass CDate))
                      (mkFieldInfo (Some "day") None None)))
           (Some "d")
           (mkElement "date" [("name", "d"); ("description", "day")] [])).
  reflexivity.
Defined.

(** X11: a field whose tag is neither "list" nor "object" is a leaf: the
    builder returns the element the field starts from, without children,
    with one unit of fuel. *)
Theorem scalar_field_is_leaf (field : FieldArg) (ft : string) :
  type_annotation_to_string field = Ok ft ->
  ft <> "list" -> ft <> "object" ->
  forall fuel name,
    create_xml_element_for_field (S fuel) field name
    = Some (Ok (field_element_head field name ft))
    /\ tag (field_element_head field name ft) = ft
    /\ children (field_element_head field name ft) = [].
Proof.
  intros Hcls Hl Ho fuel name.
  split; [| apply field_element_head_tag_children].
  rewrite field_unfold, Hcls. cbn [lift fbind]. cbv zeta.
  apply String.eqb_neq in Hl, Ho. now rewrite Hl, Ho.
Qed.

Lemma scalar_field_is_leaf_witness :
  create_xml_element_for_field 1 (AType (TClass CHttpUrl)) (Some "link")
  = Some (Ok (mkElement "url" [("name", "link")] [])).
Proof.
  apply (scalar_field_is_leaf (AType (TClass CHttpUrl)) "url" eq_refl);
    discriminate.
Defined.

Lemma field_unfold_list (fuel : nat) (field : FieldArg)
  (name : option string) (t : ty) :
  prepare_type_annotation field = Ok t ->
  is_list (AType t) = Ok true ->
  create_xml_element_for_field (S fuel) field name =
    (let element := field_element_head field name "list" in
     match get_args t with
     | [] => Some (Raise IndexError)
     | inner_type :: _ =>
         if is_pydantic_base_model inner_type then
           object_element <~
             create_xml_element_for_base_model fuel inner_type None ;;
           Some (Ok (Element_append element object_element))
         else
           inner_element <~
             create_xml_element_for_field fuel (AType inner_type) None ;;
           Some (Ok (Element_append element inner_element))
     end).
Proof.
  intros Hprep Hl. rewrite field_unfold.
  unfold type_annotation_to_string. rewrite Hprep. cbn [bind].
  rewrite Hl. cbn [bind lift fbind].
  cbv zeta. cbn [String.eqb Ascii.eqb Bool.eqb orb].
  rewrite ?Hprep. cbn [fbind]. rewrite ?Hl. reflexivity.
Qed.

(** X12: a list with an element type has exactly one child, built from the
    first type argument: by the model builder with a new object element when
    it is a model class, by the field builder without a name otherwise. *)
Theorem list_field_single_child (field : FieldArg) (o_args : list ty)
  (inner : ty) :
  prepare_type_annotation field = Ok (TGeneric OList (inner :: o_args)) ->
  forall fuel name,
    create_xml_element_for_field (S fuel) field name =
      (child <~
         (if is_pydantic_base_model inner
          then create_xml_element_for_base_model fuel inner None
          else create_xml_element_for_field fuel (AType inner) None) ;;
       Some (Ok (mkElement "list"
                   (attrib (field_element_head field name "list"))
                   [child]))).
Proof.
  intros Hprep fuel name.
  rewrite (field_unfold_list fuel field name _ Hprep) by reflexivity.
  cbn [get_args]. cbv zeta.
  destruct (field_element_head_tag_children field name "list") as [Ht Hc].
  unfold Element_append. rewrite Ht, Hc.
  now destruct (is_pydantic_base_model inner).
Qed.

Lemma list_field_single_child_witness :
  create_xml_element_for_field 2
    (AType (TGeneric OList [Optional (TClass CInt)])) (Some "ns")
  = Some (Ok (mkElement "list" [("name", "ns")]
                [mkElement "integer" [] []])).
Proof.
  refine (eq_trans
            (list_field_single_child
               (AType (TGeneric OList [Optional (TClass CInt)])) []
               (Optional (TClass CInt)) eq_refl 1 (Some "ns")) _).
  reflexivity.
Defined.

(** X13: a list of a model class gives a "list" element whose only child is
    an "object" element without attributes, so without a name. *)
Theorem list_of_model_child (field : FieldArg) (cls : string)
  (fs : list (string * ModelField)) (o_args : list ty) (fuel : nat)
  (name : option string) (e : Element) :
  prepare_type_annotation field
    = Ok (TGeneric OList (TModel cls fs :: o_args)) ->
  create_xml_element_for_field fuel field name = Some (Ok e) ->
  tag e = "list"
  /\ exists obj, children e = [obj] /\ tag obj = "object" /\ attrib obj = [].
Proof.
  intros Hprep He. destruct fuel as [| fuel]; [discriminate |].
  rewrite (field_unfold_list fuel field name _ Hprep) in He by reflexivity.
  cbn [get_args is_pydantic_base_model] in He. cbv zeta in He.
  destruct (field_element_head_tag_children field name "list") as [Ht Hc].
  destruct fuel as [| fuel]; [discriminate |].
  rewrite base_model_unfold in He. cbv zeta in He.
  destruct (collect (named_field fuel) (direct_fields fs))
    as [[direct | ex] |]; cbn [fbind] in He; try discriminate.
  destruct (collect (choice_of fuel) (fst (when_groups fs)))
    as [[choices | ex] |]; cbn [fbind] in He; try discriminate.
  injection He as <-. cbn [tag children Element_append E attrib].
  rewrite Ht, Hc. split; [reflexivity |]. eexists. repeat split.
Qed.

Lemma list_of_model_child_witness :
  tag (mkElement "list" [("name", "cs")]
         [mkElement "object" [] [mkElement "float" [("name", "radius")] []]])
  = "list"
  /\ exists obj,
       children
         (mkElement "list" [("name", "cs")]
            [mkElement "object" []
               [mkElement "float" [("name", "radius")] []]]) = [obj]
       /\ tag obj = "object" /\ attrib obj = [].
Proof.
  apply (list_of_model_child (AType (TGeneric OList [Circle])) "Circle"
           [("radius", mkModelField (TClass CFloat) no_info)] [] 3
           (Some "cs")
           (mkElement "list" [("name", "cs")]
              [mkElement "object" []
                 [mkElement "float" [("name", "radius")] []]])
           eq_refl).
  reflexivity.
Defined.

(** X14: a dict without exactly two type arguments ([dict], [typing.Dict],
    or an alias with another number of arguments) gives an "object" element
    without children and raises nothing. *)
Theorem dict_without_two_args_is_childless (field : FieldArg) (t : ty) :
  prepare_type_annotation field = Ok t ->
  t = TClass CDict
  \/ (exists args, t = TGeneric ODict args /\ List.length args <> 2) ->
  forall fuel name,
    create_xml_element_for_field (S fuel) field name
    = Some (Ok (field_element_head field name "object"))
    /\ children (field_element_head field name "object") = [].
Proof.
  intros Hprep Ht fuel name.
  split; [| apply field_element_head_tag_children].
  destruct Ht as [-> | (args & -> & Hlen)].
  - now rewrite (field_unfold_object fuel field name _ Hprep).
  - rewrite (field_unfold_object fuel field name _ Hprep) by reflexivity.
    cbn [is_pydantic_base_model get_args]. cbv zeta.
    destruct args as [| k [| v [| x rest]]]; try reflexivity.
    now contradiction Hlen.
Qed.

Lemma dict_without_two_args_is_childless_witness :
  create_xml_element_for_field 1 (AType (TGeneric ODict [])) (Some "extra")
  = Some (Ok (mkElement "object" [("name", "extra")] [])).
Proof.
  apply (dict_without_two_args_is_childless (AType (TGeneric ODict []))
           (TGeneric ODict []) eq_refl).
  right. exists []. split; [reflexivity | discriminate].
Defined.

Lemma collect_all_ok {X Y : Type} (f : X -> fueled Y) (xs : list X) :
  Forall (fun x => exists y, f x = Some (Ok y)) xs ->
  exists ys, collect f xs = Some (Ok ys).
Proof.
  induction 1 as [| x xs [y Hy] _ [ys IH]]; cbn; [eauto |].
  rewrite Hy, IH. cbn. eauto.
Qed.

Lemma collect_ok_inv {X Y : Type} (f : X -> fueled Y) (xs : list X) :
  forall ys, collect f xs = Some (Ok ys) ->
             Forall2 (fun x y => f x = Some (Ok y)) xs ys.
Proof.
  induction xs as [| x xs IH]; cbn; intros ys H.
  - injection H as <-. constructor.
  - destruct (f x) as [[y | e] |] eqn:Hx; cbn in H; try discriminate.
    destruct (collect f xs) as [[ys' | e] |]; cbn in H; try discriminate.
    injection H as <-. constructor; auto.
Qed.

(** X15: no error of a field is swallowed: when the fields of the direct
    pass before some field build and that field raises, the model builder
    raises the same exception, whatever comes after. *)
Theorem first_failing_field_fails_model (fuel : nat) (cls : string)
  (fields pre post : list (string * ModelField)) (nf : string * ModelField)
  (element : option Element) (ex : exn) :
  direct_fields fields = (pre ++ nf :: post)%list ->
  Forall (fun p => exists e, named_field fuel p = Some (Ok e)) pre ->
  named_field fuel nf = Some (Raise ex) ->
  create_xml_element_for_base_model (S fuel) (TModel cls fields) element
  = Some (Raise ex).
Proof.
  intros Hd Hpre Hnf. rewrite base_model_unfold, Hd. cbv zeta.
  rewrite collect_app. destruct (collect_all_ok _ _ Hpre) as [ys ->].
  cbn [fbind collect]. now rewrite Hnf.
Qed.

Lemma first_failing_field_fails_model_witness :
  create_xml_element_for_base_model 2
    (TModel "Mixed"
       [("a", mkModelField (TClass CInt) no_info);
        ("b", mkModelField (TClass (COther "bytes")) no_info);
        ("c", mkModelField (TGeneric OList []) no_info)]) None
  = Some (Raise (UnsupportedType (TClass (COther "bytes")))).
Proof.
  apply (first_failing_field_fails_model 1 "Mixed"
           [("a", mkModelField (TClass CInt) no_info);
            ("b", mkModelField (TClass (COther "bytes")) no_info);
            ("c", mkModelField (TGeneric OList []) no_info)]
           [("a", mkModelField (TClass CInt) no_info)]
           [("c", mkModelField (TGeneric OList []) no_info)]
           ("b", mkModelField (TClass (COther "bytes")) no_info)
           None (UnsupportedType (TClass (COther "bytes"))) eq_refl).
  - repeat constructor. eexists. reflexivity.
  - reflexivity.
Defined.

Lemma choice_of_shape (fuel : nat)
  (group : string * list (string * ModelField)) (c : Element) :
  choice_of fuel group = Some (Ok c) -> is_choice_for fuel group c.
Proof.
  unfold choice_of, is_choice_for.
  destruct (collect (case_of fuel) (snd group)) as [[cases | ex] |] eqn:Hc;
    cbn [fbind]; try discriminate.
  intros H. injection H as <-. cbn [tag attrib children].
  split; [reflexivity | split; [reflexivity |]].
  apply collect_ok_inv in Hc.
  induction Hc as [| nf case g cases Hcase _ IH]; constructor; [| exact IH].
  unfold case_of in Hcase.
  destruct (named_field fuel nf) as [[e | ex] |] eqn:Hn; cbn [fbind] in Hcase;
    try discriminate.
  injection Hcase as <-. cbn. eauto.
Qed.

(** X16: when the model builder succeeds, the children it adds are the
    elements of the fields of the direct pass, one each and in order,
    followed by one [choice] element per discriminator group, in order; each
    [choice] is named after its key, has [on-fail-choice="exception"], and
    holds one [case] per grouped field, named after the field, whose only
    child is the field's element. *)
Theorem model_children_structure (fuel : nat) (cls : string)
  (fields : list (string * ModelField)) (element : option Element)
  (e : Element) :
  create_xml_element_for_base_model (S fuel) (TModel cls fields) element
    = Some (Ok e) ->
  exists direct choices,
    children e
    = (children (match element with Some a => a | None => E "object" end)
       ++ direct ++ choices)%list
    /\ Forall2 (fun nf d => named_field fuel nf = Some (Ok d))
         (direct_fields fields) direct
    /\ Forall2 (is_choice_for fuel) (fst (when_groups fields)) choices.
Proof.
  rewrite base_model_unfold. cbv zeta.
  destruct (collect (named_field fuel) (direct_fields fields))
    as [[direct | ex] |] eqn:Hd; cbn [fbind]; try discriminate.
  destruct (collect (choice_of fuel) (fst (when_groups fields)))
    as [[choices | ex] |] eqn:Hc; cbn [fbind]; try discriminate.
  intros H. injection H as <-. exists direct, choices. cbn [children].
  split; [reflexivity |]. split; [now apply collect_ok_inv |].
  apply collect_ok_inv in Hc.
  induction Hc as [| g c gs cs Hg _ IH]; constructor; [| exact IH].
  now apply choice_of_shape.
Qed.

Lemma model_children_structure_witness :
  exists direct choices,
    children
      (mkElement "object" []
         [mkElement "choice"
            [("name", "shape"); ("on-fail-choice", "exception")]
            [mkElement "case" [("name", "x")]
               [mkElement "string" [("name", "x")] []]]])
    = (children (E "object") ++ direct ++ choices)%list
    /\ Forall2 (fun nf d => named_field 1 nf = Some (Ok d))
         (direct_fields
            [("shape", mkModelField (TClass (COther "bytes")) no_info);
             ("x", mkModelField (TClass CStr) shape_info)]) direct
    /\ Forall2 (is_choice_for 1)
         (fst (when_groups
                 [("shape", mkModelField (TClass (COther "bytes")) no_info);
                  ("x", mkModelField (TClass CStr) shape_info)])) choices.
Proof.
  apply (model_children_structure 1 "Tagged"
           [("shape", mkModelField (TClass (COther "bytes")) no_info);
            ("x", mkModelField (TClass CStr) shape_info)] None).
  reflexivity.
Defined.

(** X17: an accumulator only changes where the result is put: building into
    [acc] gives the tag and attributes of [acc], and its children followed by
    the children of the object built without accumulator. *)
Theorem accumulator_composes (fuel : nat) (model : ty) (acc : Element) :
  create_xml_element_for_base_model fuel model (Some acc) =
    (e <~ create_xml_element_for_base_model fuel model None ;;
     Some (Ok (mkElement (tag acc) (attrib acc)
                 (children acc ++ children e)%list))).
Proof.
  destruct fuel as [| fuel]; [reflexivity |].
  destruct model as [c | o args | cls fields];
    try (rewrite !base_model_not_model by reflexivity; reflexivity).
  rewrite !base_model_unfold. cbv zeta.
  destruct (collect (named_field fuel) (direct_fields fields))
    as [[direct | ex] |]; cbn [fbind]; try reflexivity.
  destruct (collect (choice_of fuel) (fst (when_groups fields)))
    as [[choices | ex] |]; reflexivity.
Qed.

(** *** The grouping loop, declaratively *)

Lemma identify_when_discriminator ch cs (n : string) (f : ModelField) :
  identify_when (ch, cs) (n, f)
  = match discriminator f with
    | Some w => (defaultdict_append w (n, f) ch, n :: cs)
    | None => (ch, cs)
    end.
Proof.
  unfold identify_when, discriminator.
  destruct (when (field_info f)) as [w |]; [| reflexivity].
  now destruct (truthy (Some w)).
Qed.

Lemma has_when_discriminator (f : ModelField) :
  has_when f = match discriminator f with Some _ => true | None => false end.
Proof.
  unfold has_when, discriminator.
  destruct (when (field_info f)) as [w |]; [| reflexivity].
  now destruct (truthy (Some w)).
Qed.

Lemma when_keys_occurrences (fields : list (string * ModelField)) :
  when_keys fields = first_seen (key_occurrences fields).
Proof. reflexivity. Qed.

Lemma fields_with_key_snoc (k : string) (l : list (string * ModelField))
  (x : string * ModelField) :
  fields_with_key k (l ++ [x])
  = (fields_with_key k l
     ++ match discriminator (snd x) with
        | Some w => if String.eqb w k then [x] else []
        | None => []
        end)%list.
Proof.
  unfold fields_with_key. rewrite filter_app. cbn [filter].
  destruct (discriminator (snd x)) as [w |]; [| reflexivity].
  now destruct (String.eqb w k).
Qed.

Lemma fields_with_key_unseen (k : string) (l : list (string * ModelField)) :
  set_mem k (key_occurrences l) = false -> fields_with_key k l = [].
Proof.
  unfold fields_with_key, key_occurrences, set_mem.
  induction l as [| [n f] l IH]; cbn [flat_map filter snd]; [reflexivity |].
  rewrite existsb_app. intros H. apply orb_false_iff in H.
  destruct H as [H1 H2]. rewrite (IH H2).
  destruct (discriminator f) as [w |]; [| reflexivity].
  cbn in H1. rewrite orb_false_r in H1. now rewrite H1.
Qed.

Lemma defaultdict_append_map {V : Type} (g : string -> list V) (w : string)
  (x : V) (ks : list string) :
  NoDup ks ->
  defaultdict_append w x (map (fun k => (k, g k)) ks)
  = if set_mem w ks
    then map (fun k => (k, if String.eqb w k then (g k ++ [x])%list else g k))
           ks
    else (map (fun k => (k, g k)) ks ++ [(w, [x])])%list.
Proof.
  unfold set_mem. induction ks as [| k0 ks IH]; intros Hnd; [reflexivity |].
  inversion Hnd as [| ? ? Hk Hnd']; subst.
  cbn [map defaultdict_append existsb].
  destruct (String.eqb k0 w) eqn:E0; cbn [orb].
  - apply String.eqb_eq in E0. subst k0. rewrite String.eqb_refl. f_equal.
    apply map_ext_in. intros k Hin.
    destruct (String.eqb w k) eqn:E; [| reflexivity].
    apply String.eqb_eq in E. now subst.
  - rewrite (IH Hnd'), (String.eqb_sym w k0), E0.
    now destruct (existsb (fun k' => String.eqb k' w) ks).
Qed.

Lemma when_groups_fst (fields : list (string * ModelField)) :
  fst (when_groups fields)
  = map (fun k => (k, fields_with_key k fields)) (when_keys fields).
Proof.
  unfold when_groups. induction fields as [| [n f] l IH] using rev_ind;
    [reflexivity |].
  rewrite fold_left_app. cbn [fold_left].
  destruct (fold_left identify_when l ([], [])) as [ch cs]. cbn [fst] in IH.
  rewrite identify_when_discriminator, !when_keys_occurrences.
  unfold key_occurrences. rewrite flat_map_app. cbn [flat_map snd].
  fold (key_occurrences l). rewrite app_nil_r.
  destruct (discriminator f) as [w |] eqn:Hw; cbn [fst].
  - rewrite first_seen_snoc, IH, when_keys_occurrences.
    rewrite defaultdict_append_map by apply first_seen_NoDup.
    rewrite set_mem_first_seen.
    destruct (set_mem w (key_occurrences l)) eqn:Hmem.
    + apply map_ext. intros k. rewrite fields_with_key_snoc. cbn [snd].
      rewrite Hw. destruct (String.eqb w k); [reflexivity |].
      now rewrite app_nil_r.
    + rewrite map_app. cbn [map]. f_equal.
      * apply map_ext_in. intros k Hk. rewrite fields_with_key_snoc.
        cbn [snd]. rewrite Hw.
        destruct (String.eqb w k) eqn:E; [| now rewrite app_nil_r].
        apply String.eqb_eq in E. subst k.
        apply (proj1 (first_seen_In _ _)) in Hk.
        apply (proj2 (set_mem_In _ _)) in Hk. congruence.
      * rewrite fields_with_key_snoc. cbn [snd].
        rewrite Hw, String.eqb_refl.
        now rewrite (fields_with_key_unseen w l Hmem).
  - rewrite app_nil_r, IH, when_keys_occurrences. apply map_ext. intros k.
    rewrite fields_with_key_snoc. cbn [snd]. rewrite Hw.
    now rewrite app_nil_r.
Qed.

Lemma when_groups_snd (n : string) (fields : list (string * ModelField)) :
  forall st,
    set_mem n (snd (fold_left identify_when fields st))
    = (set_mem n (snd st) || names_discriminated n fields)%bool.
Proof.
  unfold names_discriminated.
  induction fields as [| [n0 f] l IH]; intros [ch cs]; cbn [fold_left existsb].
  - now rewrite orb_false_r.
  - rewrite IH, identify_when_discriminator, has_when_discriminator.
    cbn [fst snd].
    destruct (discriminator f) as [w |]; cbn [snd set_mem existsb].
    + unfold set_mem. cbn [existsb]. rewrite andb_true_r.
      destruct (String.eqb n0 n), (existsb (fun k' => String.eqb k' n) cs);
        reflexivity.
    + now rewrite andb_false_r.
Qed.

Lemma dict_mem_map_keys {V : Type} (g : string -> V) (k : string)
  (ks : list string) :
  dict_mem k (map (fun k' => (k', g k')) ks) = set_mem k ks.
Proof.
  rewrite dict_mem_keys, map_map. cbn [fst]. now rewrite map_id.
Qed.

(** X18: the grouping loop, declaratively: there is one group per
    discriminator key, the keys in order of first occurrence, and the group
    of a key holds the fields carrying it in declaration order; the direct
    pass takes the fields whose name is neither a key nor the name of a field
    that carries a key. *)
Theorem grouping_by_discriminator (fields : list (string * ModelField)) :
  fst (when_groups fields)
  = map (fun k => (k, fields_with_key k fields)) (when_keys fields)
  /\ direct_fields fields
     = filter
         (fun nf =>
            negb (set_mem (fst nf) (when_keys fields)
                  || names_discriminated (fst nf) fields))
         fields.
Proof.
  split; [apply when_groups_fst |].
  unfold direct_fields. rewrite when_groups_fst. apply filter_ext.
  intros [n f]. cbn [fst]. rewrite dict_mem_map_keys.
  unfold when_groups. now rewrite when_groups_snd.
Qed.

Lemma unique_name_field {X : Type} (l : list (string * X)) (n : string)
  (a b : X) :
  NoDup (map fst l) -> In (n, a) l -> In (n, b) l -> a = b.
Proof.
  induction l as [| [k v] l IH]; cbn; [easy |].
  intros Hnd Ha Hb. inversion Hnd as [| ? ? Hk Hnd']; subst.
  destruct Ha as [Ha | Ha], Hb as [Hb | Hb].
  - congruence.
  - injection Ha as -> ->. contradict Hk.
    apply in_map_iff. now exists (n, b).
  - injection Hb as -> ->. contradict Hk.
    apply in_map_iff. now exists (n, a).
  - now apply IH.
Qed.

(** X19: when the field names are distinct, as the keys of [__fields__]
    are, a field is built in the direct pass exactly when it carries no
    discriminator key and its name is not the key of some other field. *)
Theorem direct_pass_with_distinct_names
  (fields : list (string * ModelField)) :
  NoDup (map fst fields) ->
  direct_fields fields
  = filter
      (fun nf =>
         negb (has_when (snd nf))
         && negb (set_mem (fst nf) (when_keys fields)))%bool
      fields.
Proof.
  intros Hnd.
  assert (H : direct_fields fields
     = filter
         (fun nf =>
            negb (set_mem (fst nf) (when_keys fields)
                  || names_discriminated (fst nf) fields))
         fields).
  { unfold direct_fields. rewrite when_groups_fst. apply filter_ext.
    intros [n f]. cbn [fst]. rewrite dict_mem_map_keys.
    unfold when_groups. now rewrite when_groups_snd. }
  rewrite H. apply filter_ext_in. intros [n f] Hin. cbn [fst snd].
  assert (Hd : names_discriminated n fields = has_when f).
  { unfold names_discriminated. destruct (has_when f) eqn:Hf.
    - apply existsb_exists. exists (n, f). cbn [fst snd].
      now rewrite String.eqb_refl, Hf.
    - destruct (existsb _ fields) eqn:Hex; [| reflexivity].
      apply existsb_exists in Hex. destruct Hex as ([n' f'] & Hin' & Hb).
      cbn [fst snd] in Hb. apply andb_true_iff in Hb. destruct Hb as [E Hf'].
      apply String.eqb_eq in E. subst n'.
      rewrite (unique_name_field fields n f f' Hnd Hin Hin') in Hf.
      congruence. }
  rewrite Hd.
  now destruct (has_when f), (set_mem n (when_keys fields)).
Qed.

Lemma direct_pass_with_distinct_names_witness :
  direct_fields
    [("title", mkModelField (Optional (TClass CStr)) no_info);
     ("x", mkModelField (TClass CStr) shape_info);
     ("shape", mkModelField (TClass CInt) no_info)]
  = [("title", mkModelField (Optional (TClass CStr)) no_info)].
Proof.
  refine (eq_trans
            (direct_pass_with_distinct_names
               [("title", mkModelField (Optional (TClass CStr)) no_info);
                ("x", mkModelField (TClass CStr) shape_info);
                ("shape", mkModelField (TClass CInt) no_info)] _) _).
  - repeat constructor; cbn; intuition discriminate.
  - reflexivity.
Defined.

(** *** The tags of the output *)









(** *** Termination *)

(** X21: on every schema the field builder ends: there is one outcome, an
    element or an exception, that it reaches with any fuel from
    [enough_fuel] on, which is twice the nesting depth of the declared type
    plus two. *)
Theorem builder_terminates (field : FieldArg) (name : option string) :
  exists outcome,
    forall fuel,
      enough_fuel field <= fuel ->
      create_xml_element_for_field fuel field name = Some outcome.
Proof.
  destruct (proj1 (enough_fuel_both (enough_fuel field)) field name
              (Nat.le_refl _)) as [r Hr].
  exists r. intros fuel Hle.
  now apply (fuel_monotone_le (enough_fuel field) fuel).
Qed.

End BuilderShapes.
